(** * browser7-node: the render-job client, embedded and verified

    Source: [src/index.js] (class [Browser7]).  The client submits a render
    job over HTTP, polls its status, decodes two compressed fields of the
    result and reports progress to an optional callback.

    Conventions of the embedding.
    - A JavaScript value that can come out of [JSON.parse] (or be absent) is
      a [JsVal]; a plain object is a finite map from keys to values.  Numbers
      are integers: every number the client computes with (attempt counts,
      delays in milliseconds, [retryAfter] in seconds, timeouts) is one, and
      IEEE doubles are outside the model.
    - Capabilities of the platform that the file only calls ([Buffer.from],
      [zlib.gunzip], [Buffer.toString], [JSON.parse], the numeric reading of
      a string) are fields of a [Runtime]; the network and the clock are
      fields of an [Env].  Neither is implemented here.
    - [async] code is a state-and-exception monad [M] over a [World] that
      records, in order, every observable action: HTTP calls, timers and
      callback invocations.  HTTP headers are constant per client and are not
      recorded. *)

From Stdlib Require Import ZArith.
From stdpp Require Import gmap strings list fin_maps pretty.

Set Warnings "-register-all".
Local Open Scope Z_scope.

(** ** JavaScript values *)

Inductive JsVal : Type :=
  | JUndefined
  | JNull
  | JBool (b : bool)
  | JNum (n : Z)
  | JStr (s : string)
  | JArr (l : list JsVal)
  | JObj (m : gmap string JsVal).

(** [if (v)], [v ? _ : _], [v || _]: ToBoolean. *)
Definition truthy (v : JsVal) : bool :=
  match v with
  | JUndefined | JNull => false
  | JBool b => b
  | JNum n => negb (n =? 0)
  | JStr s => negb (String.eqb s "")
  | JArr _ | JObj _ => true
  end.

(** [v !== undefined] *)
Definition defined (v : JsVal) : bool :=
  match v with JUndefined => false | _ => true end.

(** [o.k] on a plain object: a missing key reads as [undefined]. *)
Definition get (o : gmap string JsVal) (k : string) : JsVal :=
  default JUndefined (o !! k).

(** [v.k] for a value that is neither [null] nor [undefined] (those throw,
    see [destructure_renderId] and [decode_result]).  Only the keys [renderId], [html],
    [fetchResponses], [status], [error] and [retryAfter] are ever read, and
    no string, number, boolean or array carries one of them. *)
Definition get_prop (v : JsVal) (k : string) : JsVal :=
  match v with
  | JObj m => get m k
  | _ => JUndefined
  end.

(** [v === 'lit'] against a string literal. *)
Definition is_string (v : JsVal) (lit : string) : bool :=
  match v with
  | JStr s => String.eqb s lit
  | _ => false
  end.

(** A parameter with a default value: [function f(x = d)]. *)
Definition or_default (v d : JsVal) : JsVal :=
  match v with JUndefined => d | _ => v end.

(** ToString, as a template literal applies it.  A number prints in
    decimal, which is what JavaScript does below 10^21. *)
Fixpoint to_string (v : JsVal) : string :=
  match v with
  | JUndefined => "undefined"
  | JNull => "null"
  | JBool true => "true"
  | JBool false => "false"
  | JNum n => pretty n
  | JStr s => s
  | JArr l =>
      String.concat ","
        (map (fun x => match x with
                       | JUndefined | JNull => ""
                       | _ => to_string x
                       end) l)
  | JObj _ => "[object Object]"
  end.

(** A JavaScript number as far as the model goes: an integer or [NaN]. *)
Inductive Num : Type :=
  | Fin (n : Z)
  | NaN.

(** ** Wait-action builders (static methods) *)

Definition waitForDelay (duration : JsVal) : gmap string JsVal :=
  <["duration" := duration]> {["type" := JStr "delay"]}.

Definition waitForSelector (selector state timeout : JsVal) : gmap string JsVal :=
  let state := or_default state (JStr "visible") in
  let timeout := or_default timeout (JNum 30000) in
  <["timeout" := timeout]> (<["state" := state]>
    (<["selector" := selector]> {["type" := JStr "selector"]})).

Definition waitForText (text selector timeout : JsVal) : gmap string JsVal :=
  let timeout := or_default timeout (JNum 30000) in
  let action := <["timeout" := timeout]> (<["text" := text]> {["type" := JStr "text"]}) in
  if truthy selector then <["selector" := selector]> action else action.

Definition waitForClick (selector timeout : JsVal) : gmap string JsVal :=
  let timeout := or_default timeout (JNum 30000) in
  <["timeout" := timeout]> (<["selector" := selector]> {["type" := JStr "click"]}).

(** ** The request payload of [createRender] *)

(** [if (options.k !== undefined) payload.k = options.k;] *)
Definition forward (options : gmap string JsVal) (k : string)
    (payload : gmap string JsVal) : gmap string JsVal :=
  if defined (get options k) then <[k := get options k]> payload else payload.

Definition build_payload (url : string) (options : gmap string JsVal)
    : gmap string JsVal :=
  let payload := {["url" := JStr url]} in
  let payload := forward options "countryCode" payload in
  let payload := forward options "city" payload in
  let payload := forward options "fetchUrls" payload in
  let payload := forward options "waitFor" payload in
  let payload := forward options "captcha" payload in
  let payload := forward options "blockImages" payload in
  let payload := forward options "includeScreenshot" payload in
  let payload := forward options "screenshotFormat" payload in
  let payload := forward options "screenshotQuality" payload in
  let payload := forward options "screenshotFullPage" payload in
  payload.

(** The ten option keys of the HTTP contract. *)
Definition option_keys : list string :=
  ["countryCode"; "city"; "fetchUrls"; "waitFor"; "captcha"; "blockImages";
   "includeScreenshot"; "screenshotFormat"; "screenshotQuality";
   "screenshotFullPage"].

(** The caller set option [k]: the options object holds a value for it.  A
    key bound to [undefined] counts as not set, as everywhere in JavaScript
    ([JSON.stringify] would drop it from the body in any case). *)
Definition explicitly_set (options : gmap string JsVal) (k : string) : bool :=
  match options !! k with
  | Some JUndefined | None => false
  | Some _ => true
  end.

(** ** Platform capabilities *)

(** What the file calls but does not define.  [from_base64 v] is
    [Buffer.from(v, 'base64')] and [gunzip] the promisified [zlib.gunzip];
    [None] stands for a throw or a rejection, which the caller's [try]
    catches.  [toString_utf8] is [buffer.toString('utf-8')], which does not
    fail, and [StringToNumber] the numeric reading of a string. *)
Class Runtime : Type := {
  from_base64 : JsVal -> option (list Byte.byte);
  gunzip : list Byte.byte -> option (list Byte.byte);
  toString_utf8 : list Byte.byte -> string;
  JSON_parse : string -> option JsVal;
  StringToNumber : string -> Num;
}.

(** What [fetch] does with one request.  The body of an answer that is not
    ok is taken to be readable as text. *)
Inductive Response : Type :=
  | Unreachable (message : string)
      (* fetch rejected; [message] is [error.message] *)
  | Refused (status : Z) (text : string)
      (* [response.ok] is false; [text] is what [response.text()] gives *)
  | Accepted (json : option JsVal).
      (* [response.ok]; [json] is what [response.json()] resolves to,
         [None] when it rejects *)

(** The world outside one [render] call: the service's answer to the POST,
    its answer to the k-th status GET (counted from 0), and the k-th reading
    of the clock as an ISO string. *)
Record Env : Type := {
  post_renders : string -> gmap string JsVal -> Response;
  get_render : nat -> string -> Response;
  now : nat -> string;
}.

(** ** Progress events, actions, and the world *)

Inductive EventType : Type := started | polling | completed | failed.

(** The object handed to [onProgress]; an optional field is a key that the
    object literal of that event does not have. *)
Record ProgressEvent : Type := {
  ev_type : EventType;
  ev_renderId : JsVal;
  ev_timestamp : string;
  ev_status : option JsVal;
  ev_attempt : option nat;
  ev_retryAfter : option JsVal;
}.

Inductive Action : Type :=
  | HttpPost (url : string) (body : gmap string JsVal)
  | HttpGet (url : string)
  | Timer (ms : Num)              (* [await] of [setTimeout(resolve, ms)] *)
  | Progress (e : ProgressEvent). (* [onProgress(e)] *)

(** The third argument of [render]: nothing (or any falsy value), or a
    handler.  A handler sees the events delivered before and the current one;
    it returns normally ([None]) or throws a value.  What the handler returns
    is dropped by [render]: a promise it returns is not awaited, and what
    becomes of that promise is no step of [render].  A truthy value that is
    no function is a handler that always throws.  Returning or throwing is all a handler does
    to the run: the event object is fresh, the status and [retryAfter] in it
    are a string and a number, and a handler that would reach around [render]
    (replacing [fetch], say) is outside the model. *)
Inductive Callback : Type :=
  | NoCallback
  | Handler (f : list ProgressEvent -> ProgressEvent -> option JsVal).

Inductive Exn : Type :=
  | Error (message : string)   (* [throw new Error(message)] of this file *)
  | TypeError                  (* a property read on [null] or [undefined] *)
  | JsonRejected               (* [response.json()] rejected *)
  | CallbackThrew (v : JsVal). (* thrown by [onProgress] *)

Inductive Outcome (A : Type) : Type :=
  | Resolved (a : A)
  | Rejected (e : Exn).
Arguments Resolved {A} a.
Arguments Rejected {A} e.

Record World : Type := {
  log : list Action;   (* oldest first *)
  polls : nat;         (* status GETs issued so far *)
  ticks : nat;         (* clock readings so far *)
}.

Definition init_world : World := {| log := []; polls := 0; ticks := 0 |}.

Definition events_of (l : list Action) : list ProgressEvent :=
  omap (fun a => match a with Progress e => Some e | _ => None end) l.

Definition is_progress (a : Action) : bool :=
  match a with Progress _ => true | _ => false end.

Definition is_get (a : Action) : bool :=
  match a with HttpGet _ => true | _ => false end.

(** The HTTP calls and timers of a log, callback invocations left out. *)
Definition transport_of (l : list Action) : list Action :=
  List.filter (fun a => negb (is_progress a)) l.

(** The number of status fetches in a log. *)
Definition fetch_count (l : list Action) : nat :=
  length (List.filter is_get l).

Definition same_type (t u : EventType) : bool :=
  match t, u with
  | started, started | polling, polling
  | completed, completed | failed, failed => true
  | _, _ => false
  end.

(** The events of one type that a log delivered. *)
Definition events_of_type (t : EventType) (l : list Action) : list ProgressEvent :=
  List.filter (fun e => same_type (ev_type e) t) (events_of l).

(** ** The monad of [async] methods *)

Definition M (A : Type) : Type := World -> Outcome A * World.

#[global] Instance M_ret : MRet M := fun A a w => (Resolved a, w).

#[global] Instance M_bind : MBind M := fun A B k m w =>
  match m w with
  | (Resolved a, w') => k a w'
  | (Rejected e, w') => (Rejected e, w')
  end.

Definition throw {A : Type} (e : Exn) : M A := fun w => (Rejected e, w).

Definition record (a : Action) (w : World) : World :=
  {| log := log w ++ [a]; polls := polls w; ticks := ticks w |}.

(** ** The client *)

Record Browser7 : Type := {
  apiKey : JsVal;
  baseUrl : JsVal;
}.

(** [constructor(options = {})] *)
Definition new_Browser7 (options : gmap string JsVal) : Outcome Browser7 :=
  if negb (truthy (get options "apiKey")) then
    Rejected (Error "API key is required")
  else
    Resolved {| apiKey := get options "apiKey";
                baseUrl := if truthy (get options "baseUrl")
                           then get options "baseUrl"
                           else JStr "https://api.browser7.com/v1" |}.

Section Client.
Context {rt : Runtime} (env : Env) (this : Browser7).

(** ToNumber, as [*] applies it to an operand. *)
Definition ToNumber (v : JsVal) : Num :=
  match v with
  | JUndefined => NaN
  | JNull => Fin 0
  | JBool b => Fin (if b then 1 else 0)
  | JNum n => Fin n
  | JStr s => StringToNumber s
  | JArr _ | JObj _ => StringToNumber (to_string v)
  end.

(** [v * k] for a literal [k]. *)
Definition times (v : JsVal) (k : Z) : Num :=
  match ToNumber v with
  | Fin n => Fin (n * k)
  | NaN => NaN
  end.

(** [await fetch(url, { method: 'POST', ..., body: JSON.stringify(payload) })] *)
Definition fetch_post (url : string) (payload : gmap string JsVal) : M Response :=
  fun w => (Resolved (post_renders env url payload), record (HttpPost url payload) w).

(** [await fetch(url, { headers })]: the next status GET. *)
Definition fetch_get (url : string) : M Response :=
  fun w => (Resolved (get_render env (polls w) url),
            {| log := log w ++ [HttpGet url];
               polls := S (polls w);
               ticks := ticks w |}).

(** [await new Promise(resolve => setTimeout(resolve, ms))] *)
Definition sleep (ms : Num) : M unit :=
  fun w => (Resolved (), record (Timer ms) w).

(** [if (onProgress) { onProgress({ ..., timestamp: new Date().toISOString(), ... }) }] *)
Definition emit (onProgress : Callback) (event : string -> ProgressEvent) : M unit :=
  match onProgress with
  | NoCallback => mret ()
  | Handler f => fun w =>
      let e := event (now env (ticks w)) in
      let w' := {| log := log w ++ [Progress e];
                   polls := polls w;
                   ticks := S (ticks w) |} in
      match f (events_of (log w)) e with
      | None => (Resolved (), w')
      | Some v => (Rejected (CallbackThrew v), w')
      end
  end.

Definition createRender (url : string) (options : gmap string JsVal) : M JsVal :=
  let payload := build_payload url options in
  let renderUrl := to_string (baseUrl this) +:+ "/renders" in
  renderResponse ← fetch_post renderUrl payload;
  match renderResponse with
  | Unreachable message =>
      throw (Error ("Failed to connect to " +:+ renderUrl +:+ ": " +:+ message))
  | Refused status text =>
      throw (Error ("Failed to start render: " +:+ pretty status +:+ " " +:+ text))
  | Accepted None => throw JsonRejected
  | Accepted (Some created) => mret created
  end.

(** The body of both [try] blocks up to the text: base64, gunzip, UTF-8. *)
Definition inflate (v : JsVal) : option string :=
  buffer ← from_base64 v;
  decompressed ← gunzip buffer;
  Some (toString_utf8 decompressed).

(** [if (result.html) { try { ... result.html = ... } catch (error) {} }] *)
Definition decode_html (result : gmap string JsVal) : gmap string JsVal :=
  if truthy (get result "html") then
    match inflate (get result "html") with
    | Some text => <["html" := JStr text]> result
    | None => result
    end
  else result.

(** [if (result.fetchResponses) { try { ... JSON.parse ... } catch (error) {} }] *)
Definition decode_fetchResponses (result : gmap string JsVal) : gmap string JsVal :=
  if truthy (get result "fetchResponses") then
    match inflate (get result "fetchResponses") ≫= JSON_parse with
    | Some parsed => <["fetchResponses" := parsed]> result
    | None => result
    end
  else result.

(** What [getRender] does with the parsed body of a 2xx answer. *)
Definition decode_result (result : JsVal) : Outcome JsVal :=
  match result with
  | JUndefined | JNull => Rejected TypeError
  | JObj fields => Resolved (JObj (decode_fetchResponses (decode_html fields)))
  | _ => Resolved result
  end.

Definition statusUrl (renderId : JsVal) : string :=
  to_string (baseUrl this) +:+ "/renders/" +:+ to_string renderId.

Definition getRender (renderId : JsVal) : M JsVal :=
  resultResponse ← fetch_get (statusUrl renderId);
  match resultResponse with
  | Unreachable message =>
      throw (Error ("Failed to connect to " +:+ statusUrl renderId +:+ ": " +:+ message))
  | Refused status text =>
      throw (Error ("Failed to get render status: " +:+ pretty status +:+ " " +:+ text))
  | Accepted None => throw JsonRejected
  | Accepted (Some result) => fun w => (decode_result result, w)
  end.

(** [const { renderId } = created] *)
Definition destructure_renderId (created : JsVal) : M JsVal :=
  match created with
  | JUndefined | JNull => throw TypeError
  | _ => mret (get_prop created "renderId")
  end.

Definition started_event (renderId : JsVal) (timestamp : string) : ProgressEvent :=
  {| ev_type := started; ev_renderId := renderId; ev_timestamp := timestamp;
     ev_status := None; ev_attempt := None; ev_retryAfter := None |}.

Definition polling_event (renderId result : JsVal) (attempt : nat)
    (timestamp : string) : ProgressEvent :=
  {| ev_type := polling; ev_renderId := renderId; ev_timestamp := timestamp;
     ev_status := Some (get_prop result "status");
     ev_attempt := Some (attempt + 1)%nat;
     ev_retryAfter := Some (get_prop result "retryAfter") |}.

Definition terminal_event (type : EventType) (renderId result : JsVal)
    (timestamp : string) : ProgressEvent :=
  {| ev_type := type; ev_renderId := renderId; ev_timestamp := timestamp;
     ev_status := Some (get_prop result "status");
     ev_attempt := None; ev_retryAfter := None |}.

(** [`Render failed: ${result.error || 'Unknown error'}`] *)
Definition failure_message (result : JsVal) : string :=
  "Render failed: " +:+
    (if truthy (get_prop result "error")
     then to_string (get_prop result "error")
     else "Unknown error").

(** [result.retryAfter ? result.retryAfter * 1000 : 1000] *)
Definition retry_delay (result : JsVal) : Num :=
  if truthy (get_prop result "retryAfter")
  then times (get_prop result "retryAfter") 1000
  else Fin 1000.

(** [for (let attempt = 0; attempt < maxAttempts; attempt++) { ... }] and
    the [throw] after it, entered with [remaining = maxAttempts - attempt]
    iterations to go. *)
Fixpoint poll (onProgress : Callback) (renderId : JsVal)
    (maxAttempts remaining attempt : nat) : M JsVal :=
  match remaining with
  | O =>
      throw (Error ("Render timed out after " +:+ pretty maxAttempts +:+ " attempts"))
  | S remaining =>
      result ← getRender renderId;
      emit onProgress (polling_event renderId result attempt);;
      if is_string (get_prop result "status") "completed" then
        emit onProgress (terminal_event completed renderId result);;
        mret result
      else if is_string (get_prop result "status") "failed" then
        emit onProgress (terminal_event failed renderId result);;
        throw (Error (failure_message result))
      else
        sleep (retry_delay result);;
        poll onProgress renderId maxAttempts remaining (attempt + 1)
  end.

Definition render (url : string) (options : gmap string JsVal)
    (onProgress : Callback) : M JsVal :=
  let maxAttempts := 60%nat in
  created ← createRender url options;
  renderId ← destructure_renderId created;
  emit onProgress (started_event renderId);;
  sleep (Fin 2000);;
  poll onProgress renderId maxAttempts maxAttempts 0.

End Client.

(** ** Words of the specification *)

(** The decode chain of [html] fails at one of its steps: bad base64 or not
    gzip. *)
Definition html_chain_fails `{Runtime} (raw : JsVal) : Prop :=
  from_base64 raw = None \/
  exists buffer, from_base64 raw = Some buffer /\ gunzip buffer = None.

(** The decode chain of [fetchResponses] fails at one of its steps: bad
    base64, not gzip, or malformed JSON. *)
Definition fetchResponses_chain_fails `{Runtime} (raw : JsVal) : Prop :=
  html_chain_fails raw \/
  exists buffer decompressed,
    from_base64 raw = Some buffer /\ gunzip buffer = Some decompressed /\
    JSON_parse (toString_utf8 decompressed) = None.

(** The encoders of the service, inverse to the decoders of the platform.
    A gzip stream is never empty (it starts with a header), so neither is its
    base64 text. *)
Class Encoding `{Runtime} : Type := {
  base64 : list Byte.byte -> string;
  gzip : list Byte.byte -> list Byte.byte;
  utf8 : string -> list Byte.byte;
  from_base64_base64 : forall b, from_base64 (JStr (base64 b)) = Some b;
  gunzip_gzip : forall b, gunzip (gzip b) = Some b;
  toString_utf8_utf8 : forall s, toString_utf8 (utf8 s) = s;
  base64_gzip_nonempty : forall b, base64 (gzip b) <> "";
}.

(** A callback that returns normally from every event. *)
Definition returns_normally (onProgress : Callback) : Prop :=
  match onProgress with
  | NoCallback => True
  | Handler f => forall history e, f history e = None
  end.

(** A status is terminal when the loop of [render] leaves on it. *)
Definition terminal (result : JsVal) : bool :=
  is_string (get_prop result "status") "completed" ||
  is_string (get_prop result "status") "failed".

(** What the k-th status fetch gives [render]: the answer of the service,
    decoded, or the error of [getRender]. *)
Definition settled `{Runtime} (env : Env) (this : Browser7) (renderId : JsVal)
    (k : nat) : Outcome JsVal :=
  match get_render env k (statusUrl this renderId) with
  | Unreachable message =>
      Rejected (Error ("Failed to connect to " +:+ statusUrl this renderId
                       +:+ ": " +:+ message))
  | Refused status text =>
      Rejected (Error ("Failed to get render status: " +:+ pretty status
                       +:+ " " +:+ text))
  | Accepted None => Rejected JsonRejected
  | Accepted (Some result) => decode_result result
  end.

(** The type and attempt number of an event, all that the ordering of events
    is about. *)
Definition shape (e : ProgressEvent) : EventType * option nat :=
  (ev_type e, ev_attempt e).

(** The events of a run that polled [n] times and ended on [last]. *)
Definition lifecycle (n : nat) (last : EventType) : list (EventType * option nat) :=
  (started, None) :: map (fun k => (polling, Some k)) (seq 1 n) ++ [(last, None)].

(** ** Words of the lifecycle *)

(** The world after the next status GET of [renderId]. *)
Definition polled (this : Browser7) (renderId : JsVal) (w : World) : World :=
  {| log := log w ++ [HttpGet (statusUrl this renderId)];
     polls := S (polls w);
     ticks := ticks w |}.

(** The world after a handler, if there is one, was called with [event]. *)
Definition delivered (env : Env) (onProgress : Callback)
    (event : string -> ProgressEvent) (w : World) : World :=
  match onProgress with
  | NoCallback => w
  | Handler _ =>
      {| log := log w ++ [Progress (event (now env (ticks w)))];
         polls := polls w;
         ticks := S (ticks w) |}
  end.

(** The terminal event that goes with the way [render] ended, if it ended on
    a terminal status: it returned (status completed) or it threw the error
    of a failed render.  Every other error of the client starts with other
    words, and what a callback throws is no error of the client. *)
Definition terminal_outcome (out : Outcome JsVal) : option EventType :=
  match out with
  | Resolved _ => Some completed
  | Rejected (Error message) =>
      if String.prefix "Render failed: " message then Some failed else None
  | Rejected _ => None
  end.


Definition renderUrl (this : Browser7) : string :=
  to_string (baseUrl this) +:+ "/renders".

(** What submitting the job gives [render]: the [renderId] of the answer, or
    the error of [createRender] or of the destructuring. *)
Definition submitted (env : Env) (this : Browser7) (url : string)
    (options : gmap string JsVal) : Outcome JsVal :=
  match post_renders env (renderUrl this) (build_payload url options) with
  | Unreachable message =>
      Rejected (Error ("Failed to connect to " +:+ renderUrl this
                       +:+ ": " +:+ message))
  | Refused status text =>
      Rejected (Error ("Failed to start render: " +:+ pretty status
                       +:+ " " +:+ text))
  | Accepted None => Rejected JsonRejected
  | Accepted (Some JUndefined) | Accepted (Some JNull) => Rejected TypeError
  | Accepted (Some created) => Resolved (get_prop created "renderId")
  end.


(** The number of [polling] events that [n] polls deliver: one each to a
    handler, none without one. *)
Definition per_poll (onProgress : Callback) (n : nat) : nat :=
  match onProgress with NoCallback => 0 | Handler _ => n end.

(** How the log of a failed render ends for a handler: on the [failed] event
    of [result], the only event of its type. *)
Definition ends_on_failed (renderId result : JsVal) (l : list Action) : Prop :=
  exists earlier timestamp,
    l = earlier ++ [Progress (terminal_event failed renderId result timestamp)] /\
    events_of_type failed l = [terminal_event failed renderId result timestamp].

(** The terminal event that goes with a terminal result, and the way
    [render] ends on it: it returns a completed result and throws the error
    of a failed one. *)
Definition ending_event (result : JsVal) : EventType :=
  if is_string (get_prop result "status") "completed" then completed else failed.

Definition ending `{Runtime} (result : JsVal) : Outcome JsVal :=
  if is_string (get_prop result "status") "completed"
  then Resolved result
  else Rejected (Error (failure_message result)).

(** Every event in a log was taken by the handler without a throw. *)
Definition taken (f : list ProgressEvent -> ProgressEvent -> option JsVal)
    (l : list Action) : Prop :=
  forall earlier e later,
    l = earlier ++ Progress e :: later -> f (events_of earlier) e = None.

(** A run cut short by its handler: the last action is the event on which
    the handler threw, and the run ends in what it threw. *)
Definition aborted_by {A : Type}
    (f : list ProgressEvent -> ProgressEvent -> option JsVal)
    (out : Outcome A) (l : list Action) : Prop :=
  exists before e v,
    l = before ++ [Progress e] /\ taken f before /\
    f (events_of before) e = Some v /\ out = Rejected (CallbackThrew v).


(** ** Test doubles *)

(** A stand-in for the platform: base64 text is the bytes of the string, a
    gzip stream is its payload behind the two magic bytes, JSON knows two
    texts, and no string reads as a number. *)
Definition mock_gunzip (b : list Byte.byte) : option (list Byte.byte) :=
  match b with
  | Byte.x1f :: Byte.x8b :: payload => Some payload
  | _ => None
  end.

Definition mock_JSON_parse (s : string) : option JsVal :=
  if String.eqb s "[]" then Some (JArr [])
  else if String.eqb s "null" then Some JNull
  else None.

Definition mock_runtime : Runtime := {|
  from_base64 v := match v with
                   | JStr s => Some (String.list_byte_of_string s)
                   | JArr _ => Some []
                   | _ => None
                   end;
  gunzip := mock_gunzip;
  toString_utf8 := String.string_of_list_byte;
  JSON_parse := mock_JSON_parse;
  StringToNumber _ := NaN;
|}.

(** A mock transport: the POST is answered with [created], the k-th status
    GET with the k-th entry of [answers] and with [rest] beyond them; the
    clock reads "t0", "t1", ... *)
Definition mock_env (created : JsVal) (answers : list JsVal) (rest : JsVal) : Env := {|
  post_renders _ _ := Accepted (Some created);
  get_render k _ := Accepted (Some (default rest (answers !! k)));
  now k := "t" +:+ pretty k;
|}.

Definition mock_client : Browser7 :=
  {| apiKey := JStr "test_key"; baseUrl := JStr "https://api.browser7.com/v1" |}.

Definition status_only (status : string) : JsVal :=
  JObj {["status" := JStr status]}.

Definition processing_for (seconds : Z) : JsVal :=
  JObj (<["retryAfter" := JNum seconds]> {["status" := JStr "processing"]}).

Definition job_created : JsVal := JObj {["renderId" := JStr "r1"]}.

(** A handler that records and never throws, and handlers that throw. *)
Definition recorder : Callback := Handler (fun _ _ => None).

Definition throws_on (t : EventType) (n : option nat) : Callback :=
  Handler (fun _ e =>
    if same_type (ev_type e) t && bool_decide (ev_attempt e = n)
    then Some (JStr "boom") else None).

(** The encoders that go with [mock_runtime]. *)
Definition mock_encoding : @Encoding mock_runtime.
Proof.
  refine {| base64 := String.string_of_list_byte;
            gzip b := Byte.x1f :: Byte.x8b :: b;
            utf8 := String.list_byte_of_string |}.
  - intros b. cbn. by rewrite String.list_byte_of_string_of_list_byte.
  - reflexivity.
  - apply String.string_of_list_byte_of_string.
  - discriminate.
Defined.

(** The scenarios of the specification, on the mock transport. *)
Definition example_url : string := "https://example.com".

Definition ordering_env : Env :=
  mock_env job_created
    [processing_for 1; processing_for 1; status_only "completed"]
    (status_only "processing").

Definition always_processing_env : Env :=
  mock_env job_created [] (status_only "processing").

Definition blocked : JsVal :=
  JObj (<["error" := JStr "blocked"]> {["status" := JStr "failed"]}).

Definition failing_env : Env :=
  mock_env job_created [blocked] (status_only "processing").

Definition completing_env : Env :=
  mock_env job_created [status_only "completed"] (status_only "processing").

Definition run (env : Env) (onProgress : Callback) : Outcome JsVal * World :=
  render (rt := mock_runtime) env mock_client example_url ∅ onProgress init_world.

(** A result whose [html] is compressed as the service does it and whose
    [fetchResponses] is the compressed text of an empty array, and one whose
    fields are plain already. *)
Definition compressed_fields : gmap string JsVal :=
  <["fetchResponses" :=
      JStr (@base64 _ mock_encoding (@gzip _ mock_encoding (@utf8 _ mock_encoding "[]")))]>
    (<["html" :=
         JStr (@base64 _ mock_encoding
                 (@gzip _ mock_encoding (@utf8 _ mock_encoding "<html></html>")))]>
       {["status" := JStr "completed"]}).

Definition plain_fields : gmap string JsVal :=
  <["fetchResponses" := JArr []]>
    (<["html" := JStr "<html></html>"]> {["status" := JStr "completed"]}).

Definition fetch_once (fields : gmap string JsVal) : Outcome JsVal :=
  (getRender (rt := mock_runtime) (mock_env job_created [JObj fields] JNull)
     mock_client (JStr "r1") init_world).1.

(** ** The rest of the client *)

Definition balanceUrl (this : Browser7) : string :=
  to_string (baseUrl this) +:+ "/account/balance".

(** [getAccountBalance()]; [answer] is what [fetch] does with the GET of the
    balance URL. *)
Definition getAccountBalance (answer : string -> Response) (this : Browser7)
    : M JsVal :=
  balanceResponse ← ((fun w => (Resolved (answer (balanceUrl this)),
                                record (HttpGet (balanceUrl this)) w))
                     : M Response);
  match balanceResponse with
  | Unreachable message =>
      throw (Error ("Failed to connect to " +:+ balanceUrl this +:+ ": " +:+ message))
  | Refused status text =>
      throw (Error ("Failed to get account balance: " +:+ pretty status
                    +:+ " " +:+ text))
  | Accepted None => throw JsonRejected
  | Accepted (Some balance) => mret balance
  end.

(** The number of job submissions in a log. *)
Definition post_count (l : list Action) : nat :=
  length (List.filter (fun a => match a with HttpPost _ _ => true | _ => false end) l).

(** How the log of a completed render ends for a handler: on the
    [completed] event of [result], the only event of its type. *)
Definition ends_on_completed (renderId result : JsVal) (l : list Action) : Prop :=
  exists earlier timestamp,
    l = earlier ++ [Progress (terminal_event completed renderId result timestamp)] /\
    events_of_type completed l = [terminal_event completed renderId result timestamp].

(** More scenarios on mock transports: the service refuses every call, and
    the service stops answering at the second status fetch. *)
Definition refusing_env : Env := {|
  post_renders _ _ := Refused 401 "invalid API key";
  get_render _ _ := Refused 401 "invalid API key";
  now k := "t" +:+ pretty k;
|}.

Definition flaky_env : Env := {|
  post_renders _ _ := Accepted (Some job_created);
  get_render k _ := match k with
                    | O => Accepted (Some (status_only "processing"))
                    | _ => Unreachable "socket hang up"
                    end;
  now k := "t" +:+ pretty k;
|}.

(** The clock of a world agrees with its log: every event delivered took one
    reading, and the i-th event carries the i-th reading. *)
Definition clocked (env : Env) (w : World) : Prop :=
  ticks w = length (events_of (log w)) /\
  forall i e, events_of (log w) !! i = Some e -> ev_timestamp e = now env i.

Definition decoding_env : Env :=
  mock_env job_created [status_only "processing"; JObj compressed_fields]
    (status_only "processing").

(** * Properties *)

(** ** The payload mapper *)

Lemma defined_get_explicitly_set options k :
  defined (get options k) = explicitly_set options k.
Proof.
  unfold get, explicitly_set.
  destruct (options !! k) as [[]|]; reflexivity.
Qed.

Lemma lookup_forward options key payload k :
  forward options key payload !! k =
    if bool_decide (key = k) && explicitly_set options key
    then options !! key else payload !! k.
Proof.
  unfold forward. rewrite defined_get_explicitly_set.
  unfold explicitly_set, get.
  case_bool_decide as Hk; simpl.
  - subst k.
    destruct (options !! key) as [[]|]; simpl; rewrite ?lookup_insert_eq; reflexivity.
  - destruct (options !! key) as [[]|]; simpl;
      rewrite ?lookup_insert_ne by done; reflexivity.
Qed.

Lemma elem_of_option_keys k :
  k ∈ option_keys <->
  k = "countryCode" \/ k = "city" \/ k = "fetchUrls" \/ k = "waitFor" \/
  k = "captcha" \/ k = "blockImages" \/ k = "includeScreenshot" \/
  k = "screenshotFormat" \/ k = "screenshotQuality" \/ k = "screenshotFullPage".
Proof. unfold option_keys. rewrite !elem_of_cons, elem_of_nil. tauto. Qed.

Lemma build_payload_lookup url options k :
  build_payload url options !! k =
    if decide (k = "url") then Some (JStr url)
    else if decide (k ∈ option_keys)
         then (if explicitly_set options k then options !! k else None)
         else None.
Proof.
  unfold build_payload. cbv zeta.
  rewrite !lookup_forward, lookup_singleton.
  destruct (decide (k ∈ option_keys)) as [Hin|Hout].
  - apply elem_of_option_keys in Hin.
    repeat (destruct Hin as [->|Hin]); try subst k;
      repeat (case_bool_decide; [try discriminate|try congruence]);
      simpl; repeat case_decide; try discriminate; try congruence;
      destruct (explicitly_set options _); reflexivity.
  - rewrite elem_of_option_keys in Hout.
    repeat (case_bool_decide; [subst k; tauto|]).
    simpl. repeat case_decide; congruence.
Qed.

Lemma explicitly_set_is_Some options k :
  explicitly_set options k = true -> is_Some (options !! k).
Proof.
  unfold explicitly_set. destruct (options !! k); [eauto|discriminate].
Qed.

Lemma build_payload_dom url options :
  dom (build_payload url options) =
    {["url"]} ∪ list_to_set (List.filter (explicitly_set options) option_keys).
Proof.
  apply set_eq. intros k.
  rewrite elem_of_dom, elem_of_union, elem_of_singleton, elem_of_list_to_set,
    list_elem_of_In, List.filter_In, <- list_elem_of_In, build_payload_lookup.
  destruct (decide (k = "url")) as [->|Hurl].
  - split; [auto|eauto].
  - destruct (decide (k ∈ option_keys)) as [Hin|Hout].
    + destruct (explicitly_set options k) eqn:Hset.
      * split; [auto|]. intros _. by apply explicitly_set_is_Some.
      * split; [intros [? ?]; discriminate|].
        intros [?|[_ ?]]; [contradiction|discriminate].
    + split; [intros [? ?]; discriminate|]. intros [?|[? _]]; contradiction.
Qed.

(** C7.  [createRender] submits one POST whose body has exactly the key
    [url] and those of the ten option keys that the caller set; a key that
    is set carries the caller's value and a key that is not set is absent,
    each key on its own. *)
Theorem createRender_payload_keys env this url options w :
  exists payload,
    log (createRender env this url options w).2 =
      log w ++ [HttpPost (to_string (baseUrl this) +:+ "/renders") payload] /\
    dom payload =
      {["url"]} ∪ list_to_set (List.filter (explicitly_set options) option_keys) /\
    forall k,
      payload !! k =
        if decide (k = "url") then Some (JStr url)
        else if decide (k ∈ option_keys)
             then (if explicitly_set options k then options !! k else None)
             else None.
Proof.
  exists (build_payload url options). split; [|split].
  - unfold createRender, mbind, M_bind, fetch_post. cbn.
    destruct (post_renders env _ _) as [?|? ?|[?|]]; reflexivity.
  - apply build_payload_dom.
  - apply build_payload_lookup.
Qed.

(** ** The wait-action builder *)

(** C9 (as amended).  [waitForText] returns type ['text'], the text and the
    timeout (30000 when none is given); the [selector] key is there, with the
    given value, exactly when the selector is truthy, and absent when no
    selector is supplied. *)
Theorem waitForText_shape text selector timeout :
  let action := waitForText text selector timeout in
  action !! "type" = Some (JStr "text") /\
  action !! "text" = Some text /\
  action !! "timeout" = Some (or_default timeout (JNum 30000)) /\
  action !! "selector" = (if truthy selector then Some selector else None) /\
  waitForText text JUndefined timeout !! "selector" = None /\
  dom action = (if truthy selector then {["selector"]} else ∅)
                 ∪ {["type"; "text"; "timeout"]}.
Proof.
  unfold waitForText. cbv zeta.
  destruct (truthy selector); cbn [truthy];
    repeat split; try reflexivity;
    rewrite ?dom_insert_L, ?dom_singleton_L; try set_solver.
Qed.

(** C9, the claim as written fails: an empty selector is supplied and the
    descriptor has no [selector] key. *)
Lemma waitForText_empty_selector :
  ~ (forall text selector timeout,
       selector <> JUndefined ->
       waitForText text selector timeout !! "selector" = Some selector).
Proof.
  intros H.
  specialize (H (JStr "Hello") (JStr "") JUndefined).
  discriminate H. discriminate.
Qed.

(** ** The payload decoder *)

Section Decoder.
Context {rt : Runtime}.

Lemma inflate_None raw :
  inflate raw = None <-> html_chain_fails raw.
Proof.
  unfold inflate, html_chain_fails.
  destruct (from_base64 raw) as [buffer|] eqn:Hb; simpl.
  - destruct (gunzip buffer) eqn:Hz; simpl.
    + split; [discriminate|].
      intros [?|(b & [= <-] & Hg)]; [discriminate|congruence].
    + split; [|reflexivity]. intros _. right. eauto.
  - split; [auto|reflexivity].
Qed.

Lemma inflate_parse_None raw :
  inflate raw ≫= JSON_parse = None <-> fetchResponses_chain_fails raw.
Proof.
  unfold fetchResponses_chain_fails. rewrite <- inflate_None.
  unfold inflate.
  destruct (from_base64 raw) as [buffer|] eqn:Hb; simpl.
  - destruct (gunzip buffer) as [decompressed|] eqn:Hz; simpl.
    + split.
      * intros Hp. right. exists buffer, decompressed. auto.
      * intros [?|(b & d & [= <-] & Hd & Hp)]; [discriminate|congruence].
    + split; [auto|reflexivity].
  - split; [auto|reflexivity].
Qed.

Lemma decode_html_other fields k :
  k <> "html" -> decode_html fields !! k = fields !! k.
Proof.
  intros Hk. unfold decode_html.
  destruct (truthy _); [|reflexivity].
  destruct (inflate _); [|reflexivity].
  by apply lookup_insert_ne.
Qed.

Lemma decode_fetchResponses_other fields k :
  k <> "fetchResponses" -> decode_fetchResponses fields !! k = fields !! k.
Proof.
  intros Hk. unfold decode_fetchResponses.
  destruct (truthy _); [|reflexivity].
  destruct (_ ≫= _); [|reflexivity].
  by apply lookup_insert_ne.
Qed.

Lemma decode_html_html fields :
  decode_html fields !! "html" =
    if truthy (get fields "html")
    then match inflate (get fields "html") with
         | Some text => Some (JStr text)
         | None => fields !! "html"
         end
    else fields !! "html".
Proof.
  unfold decode_html.
  destruct (truthy _); [|reflexivity].
  destruct (inflate _); [|reflexivity].
  apply lookup_insert_eq.
Qed.

Lemma decode_fetchResponses_fetchResponses fields :
  decode_fetchResponses fields !! "fetchResponses" =
    if truthy (get fields "fetchResponses")
    then match inflate (get fields "fetchResponses") ≫= JSON_parse with
         | Some parsed => Some parsed
         | None => fields !! "fetchResponses"
         end
    else fields !! "fetchResponses".
Proof.
  unfold decode_fetchResponses.
  destruct (truthy _); [|reflexivity].
  destruct (_ ≫= _); [|reflexivity].
  apply lookup_insert_eq.
Qed.

(** The two fields are decoded one after the other and neither decoding
    touches the other field. *)
Lemma decoded_html fields :
  decode_fetchResponses (decode_html fields) !! "html" =
    decode_html fields !! "html".
Proof. by apply decode_fetchResponses_other. Qed.

Lemma decoded_fetchResponses fields :
  decode_fetchResponses (decode_html fields) !! "fetchResponses" =
    decode_fetchResponses fields !! "fetchResponses".
Proof.
  rewrite !decode_fetchResponses_fetchResponses.
  unfold get. by rewrite decode_html_other.
Qed.

Lemma get_Some (fields : gmap string JsVal) k v :
  fields !! k = Some v -> get fields k = v.
Proof. unfold get. by intros ->. Qed.

Lemma truthy_in_dom (fields : gmap string JsVal) k :
  truthy (get fields k) = true -> k ∈ dom fields.
Proof.
  unfold get. destruct (fields !! k) eqn:Hk; [|discriminate].
  intros _. by apply elem_of_dom_2 in Hk.
Qed.

Lemma decode_html_dom fields : dom (decode_html fields) = dom fields.
Proof.
  unfold decode_html.
  destruct (truthy (get fields "html")) eqn:Ht; [|reflexivity].
  destruct (inflate _); [|reflexivity].
  apply truthy_in_dom in Ht.
  rewrite dom_insert_L.
  by apply subseteq_union_1_L, singleton_subseteq_l.
Qed.

Lemma decode_fetchResponses_dom fields :
  dom (decode_fetchResponses fields) = dom fields.
Proof.
  unfold decode_fetchResponses.
  destruct (truthy (get fields "fetchResponses")) eqn:Ht; [|reflexivity].
  destruct (_ ≫= _); [|reflexivity].
  apply truthy_in_dom in Ht.
  rewrite dom_insert_L.
  by apply subseteq_union_1_L, singleton_subseteq_l.
Qed.

(** [getRender] on a 2xx answer whose body parsed: the fetch is logged and
    the body goes through the decoder. *)
Lemma getRender_accepted env this renderId w result :
  get_render env (polls w) (statusUrl this renderId) = Accepted (Some result) ->
  (getRender env this renderId w).1 = decode_result result.
Proof.
  intros Hget. unfold getRender, mbind, M_bind, fetch_get. cbn.
  rewrite Hget. reflexivity.
Qed.

(** C3.  Whatever object the service answers, [getRender] resolves; a
    field among [html] and [fetchResponses] that is absent or falsy, or
    whose decode chain fails at any step, comes back with the value it
    came in with. *)
Theorem getRender_absorbs_decode_failure env this renderId w fields :
  get_render env (polls w) (statusUrl this renderId)
    = Accepted (Some (JObj fields)) ->
  exists fields',
    (getRender env this renderId w).1 = Resolved (JObj fields') /\
    (truthy (get fields "html") = false \/ html_chain_fails (get fields "html") ->
     fields' !! "html" = fields !! "html") /\
    (truthy (get fields "fetchResponses") = false \/
     fetchResponses_chain_fails (get fields "fetchResponses") ->
     fields' !! "fetchResponses" = fields !! "fetchResponses").
Proof.
  intros Hget. exists (decode_fetchResponses (decode_html fields)).
  split; [by rewrite (getRender_accepted _ _ _ _ _ Hget)|]. split.
  - intros Hraw. rewrite decoded_html, decode_html_html.
    destruct Hraw as [->|Hfail]; [reflexivity|].
    apply inflate_None in Hfail. rewrite Hfail.
    by destruct (truthy _).
  - intros Hraw.
    rewrite decoded_fetchResponses, decode_fetchResponses_fetchResponses.
    destruct Hraw as [->|Hfail]; [reflexivity|].
    apply inflate_parse_None in Hfail. rewrite Hfail.
    by destruct (truthy _).
Qed.


Context {enc : Encoding}.

Lemma inflate_encoded s :
  inflate (JStr (base64 (gzip (utf8 s)))) = Some s.
Proof.
  unfold inflate.
  rewrite from_base64_base64. simpl.
  rewrite gunzip_gzip. simpl.
  by rewrite toString_utf8_utf8.
Qed.

Lemma truthy_encoded s : truthy (JStr (base64 (gzip (utf8 s)))) = true.
Proof.
  simpl. apply negb_true_iff, String.eqb_neq, base64_gzip_nonempty.
Qed.

(** C4.  An [html] field that holds base64(gzip(utf8(s))) comes back as
    [s], and a [fetchResponses] field that holds base64(gzip(utf8(j)))
    comes back as the value [JSON.parse] gives for [j]. *)
Theorem getRender_round_trip env this renderId w fields :
  get_render env (polls w) (statusUrl this renderId)
    = Accepted (Some (JObj fields)) ->
  exists fields',
    (getRender env this renderId w).1 = Resolved (JObj fields') /\
    (forall s,
       fields !! "html" = Some (JStr (base64 (gzip (utf8 s)))) ->
       fields' !! "html" = Some (JStr s)) /\
    (forall j parsed,
       fields !! "fetchResponses" = Some (JStr (base64 (gzip (utf8 j)))) ->
       JSON_parse j = Some parsed ->
       fields' !! "fetchResponses" = Some parsed).
Proof.
  intros Hget. exists (decode_fetchResponses (decode_html fields)).
  split; [by rewrite (getRender_accepted _ _ _ _ _ Hget)|]. split.
  - intros s Hs. rewrite decoded_html, decode_html_html.
    rewrite (get_Some _ _ _ Hs).
    by rewrite truthy_encoded, inflate_encoded.
  - intros j parsed Hj Hparse.
    rewrite decoded_fetchResponses, decode_fetchResponses_fetchResponses.
    rewrite (get_Some _ _ _ Hj).
    rewrite truthy_encoded, inflate_encoded. cbn.
    by rewrite Hparse.
Qed.

End Decoder.

(** ** The lifecycle controller *)

Lemma events_of_app l1 l2 : events_of (l1 ++ l2) = events_of l1 ++ events_of l2.
Proof. apply omap_app. Qed.

Lemma transport_of_app l1 l2 :
  transport_of (l1 ++ l2) = transport_of l1 ++ transport_of l2.
Proof. apply List.filter_app. Qed.

Lemma fetch_count_app l1 l2 :
  fetch_count (l1 ++ l2) = (fetch_count l1 + fetch_count l2)%nat.
Proof. unfold fetch_count. by rewrite List.filter_app, length_app. Qed.

Section Lifecycle.
Context {rt : Runtime} (env : Env) (this : Browser7).

Lemma getRender_run renderId w :
  getRender env this renderId w =
    (settled env this renderId (polls w), polled this renderId w).
Proof.
  unfold getRender, settled, mbind, M_bind, fetch_get, polled. cbn.
  destruct (get_render env _ _) as [?|? ?|[?|]]; reflexivity.
Qed.

Lemma emit_run onProgress event w out w' :
  emit env onProgress event w = (out, w') ->
  w' = delivered env onProgress event w /\
  (out = Resolved () \/
   exists f v, onProgress = Handler f /\ out = Rejected (CallbackThrew v) /\
               f (events_of (log w)) (event (now env (ticks w))) = Some v).
Proof.
  destruct onProgress as [|f]; cbn.
  - intros [= <- <-]. auto.
  - destruct (f _ _) as [v|] eqn:Hf; intros [= <- <-]; split; eauto 10.
Qed.

Lemma emit_normally onProgress event w :
  returns_normally onProgress ->
  emit env onProgress event w = (Resolved (), delivered env onProgress event w).
Proof.
  destruct onProgress as [|f]; cbn; [reflexivity|].
  intros Hf. by rewrite Hf.
Qed.

(** One turn of the loop, by cases on what the fetch gave and on what the
    handler did. *)
Lemma poll_unfold onProgress renderId maxAttempts remaining attempt w :
  poll env this onProgress renderId maxAttempts (S remaining) attempt w =
    let w1 := polled this renderId w in
    match settled env this renderId (polls w) with
    | Rejected e => (Rejected e, w1)
    | Resolved result =>
        match emit env onProgress (polling_event renderId result attempt) w1 with
        | (Rejected e, w2) => (Rejected e, w2)
        | (Resolved _, w2) =>
            if is_string (get_prop result "status") "completed" then
              match emit env onProgress (terminal_event completed renderId result) w2 with
              | (Rejected e, w3) => (Rejected e, w3)
              | (Resolved _, w3) => (Resolved result, w3)
              end
            else if is_string (get_prop result "status") "failed" then
              match emit env onProgress (terminal_event failed renderId result) w2 with
              | (Rejected e, w3) => (Rejected e, w3)
              | (Resolved _, w3) => (Rejected (Error (failure_message result)), w3)
              end
            else
              poll env this onProgress renderId maxAttempts remaining
                (attempt + 1) (record (Timer (retry_delay result)) w2)
        end
    end.
Proof.
  cbn [poll]. unfold mbind at 1, M_bind at 1. rewrite getRender_run. cbv zeta.
  destruct (settled env this renderId (polls w)) as [result|e]; [|reflexivity].
  unfold mbind at 1, M_bind at 1.
  destruct (emit env onProgress (polling_event renderId result attempt) _)
    as [[[]|e] w2]; [|reflexivity].
  destruct (is_string (get_prop result "status") "completed").
  { unfold mbind, M_bind. destruct (emit _ _ _ _) as [[[]|e] w3]; reflexivity. }
  destruct (is_string (get_prop result "status") "failed").
  { unfold mbind, M_bind. destruct (emit _ _ _ _) as [[[]|e] w3]; reflexivity. }
  reflexivity.
Qed.

(** *** What each step adds to the log *)

Lemma events_polled renderId w :
  events_of (log (polled this renderId w)) = events_of (log w).
Proof. cbn [polled log]. rewrite events_of_app. apply app_nil_r. Qed.

Lemma fetch_count_polled renderId w :
  fetch_count (log (polled this renderId w)) = S (fetch_count (log w)).
Proof. cbn [polled log]. rewrite fetch_count_app. cbn. lia. Qed.

Lemma transport_polled renderId w :
  transport_of (log (polled this renderId w)) =
    transport_of (log w) ++ [HttpGet (statusUrl this renderId)].
Proof. cbn [polled log]. by rewrite transport_of_app. Qed.

Lemma events_delivered f event w :
  events_of (log (delivered env (Handler f) event w)) =
    events_of (log w) ++ [event (now env (ticks w))].
Proof. cbn [delivered log]. by rewrite events_of_app. Qed.

Lemma fetch_count_delivered onProgress event w :
  fetch_count (log (delivered env onProgress event w)) = fetch_count (log w).
Proof.
  destruct onProgress; cbn [delivered log]; [reflexivity|].
  rewrite fetch_count_app. cbn. lia.
Qed.

Lemma transport_delivered onProgress event w :
  transport_of (log (delivered env onProgress event w)) = transport_of (log w).
Proof.
  destruct onProgress; cbn [delivered log]; [reflexivity|].
  rewrite transport_of_app. apply app_nil_r.
Qed.

Lemma polls_delivered onProgress event w :
  polls (delivered env onProgress event w) = polls w.
Proof. by destruct onProgress. Qed.

Lemma events_record_timer ms w :
  events_of (log (record (Timer ms) w)) = events_of (log w).
Proof. cbn [record log]. rewrite events_of_app. apply app_nil_r. Qed.

Lemma fetch_count_record_timer ms w :
  fetch_count (log (record (Timer ms) w)) = fetch_count (log w).
Proof. cbn [record log]. rewrite fetch_count_app. cbn. lia. Qed.

Lemma transport_record_timer ms w :
  transport_of (log (record (Timer ms) w)) = transport_of (log w) ++ [Timer ms].
Proof. cbn [record log]. by rewrite transport_of_app. Qed.

(** *** Errors that are not the error of a failed render *)

Lemma timed_out_not_failed s :
  String.prefix "Render failed: " ("Render timed out after " +:+ s) = false.
Proof. reflexivity. Qed.

Lemma settled_not_terminal renderId k e :
  settled env this renderId k = Rejected e ->
  terminal_outcome (Rejected e) = None.
Proof.
  unfold settled.
  destruct (get_render env k _) as [?|? ?|[result|]].
  - by intros [= <-].
  - by intros [= <-].
  - destruct result; cbn; intros [= <-]; reflexivity.
  - by intros [= <-].
Qed.

Lemma failure_message_failed result :
  String.prefix "Render failed: " (failure_message result) = true.
Proof.
  unfold failure_message.
  by destruct (if truthy _ then _ else _).
Qed.

(** *** The order of events, whatever the handler does *)

Lemma poll_ordered f renderId maxAttempts remaining attempt w out w' last :
  poll env this (Handler f) renderId maxAttempts remaining attempt w = (out, w') ->
  terminal_outcome out = Some last ->
  exists n,
    (1 <= n <= remaining)%nat /\
    fetch_count (log w') = (fetch_count (log w) + n)%nat /\
    map shape (events_of (log w')) =
      map shape (events_of (log w))
      ++ map (fun k => (polling, Some k)) (seq (attempt + 1) n)
      ++ [(last, None)] /\
    (last = completed <->
     exists result, out = Resolved result /\
                    is_string (get_prop result "status") "completed" = true).
Proof.
  revert attempt w.
  induction remaining as [|remaining IH]; intros attempt w Hrun Hlast.
  { cbn in Hrun. injection Hrun as <- <-. cbn in Hlast.
    by rewrite timed_out_not_failed in Hlast. }
  rewrite poll_unfold in Hrun. cbv zeta in Hrun.
  destruct (settled env this renderId (polls w)) as [result|e] eqn:Hres.
  2:{ injection Hrun as <- <-.
      apply settled_not_terminal in Hres. congruence. }
  destruct (emit _ _ _ _) as [[[]|e] w2] eqn:Hpoll.
  2:{ injection Hrun as <- <-.
      apply emit_run in Hpoll as [_ [?|(? & ? & _ & [= ->] & _)]]; discriminate. }
  apply emit_run in Hpoll as [-> _].
  set (w2 := delivered _ _ _ _) in *.
  assert (Hev2 : map shape (events_of (log w2)) =
                 map shape (events_of (log w)) ++ [(polling, Some (attempt + 1)%nat)]).
  { subst w2. by rewrite events_delivered, events_polled, map_app. }
  assert (Hfc2 : fetch_count (log w2) = S (fetch_count (log w))).
  { subst w2. by rewrite fetch_count_delivered, fetch_count_polled. }
  destruct (is_string (get_prop result "status") "completed") eqn:Hc.
  { destruct (emit _ _ _ w2) as [[[]|e] w3] eqn:Hdone.
    2:{ injection Hrun as <- <-.
        apply emit_run in Hdone as [_ [?|(? & ? & _ & [= ->] & _)]]; discriminate. }
    injection Hrun as <- <-. apply emit_run in Hdone as [-> _].
    injection Hlast as <-.
    exists 1%nat. split; [lia|]. split; [|split].
    - rewrite fetch_count_delivered. lia.
    - rewrite events_delivered, map_app, Hev2, <- app_assoc. reflexivity.
    - split; eauto. }
  destruct (is_string (get_prop result "status") "failed") eqn:Hf.
  { destruct (emit _ _ _ w2) as [[[]|e] w3] eqn:Hdone.
    2:{ injection Hrun as <- <-.
        apply emit_run in Hdone as [_ [?|(? & ? & _ & [= ->] & _)]]; discriminate. }
    injection Hrun as <- <-. apply emit_run in Hdone as [-> _].
    cbn [terminal_outcome] in Hlast.
    rewrite failure_message_failed in Hlast. injection Hlast as <-.
    exists 1%nat. split; [lia|]. split; [|split].
    - rewrite fetch_count_delivered. lia.
    - rewrite events_delivered, map_app, Hev2, <- app_assoc. reflexivity.
    - split; [discriminate|]. intros (? & [=] & _). }
  apply IH in Hrun as (n & Hn & Hfc & Hev & Hout); [|done].
  exists (S n). split; [lia|]. split; [|split].
  - rewrite Hfc, fetch_count_record_timer, Hfc2. lia.
  - rewrite Hev, events_record_timer, Hev2, <- app_assoc. cbn [seq map app].
    by replace (attempt + 1 + 1)%nat with (S (attempt + 1)) by lia.
  - done.
Qed.

(** *** From [render] to its loop *)

Lemma render_unfold url options onProgress w :
  render env this url options onProgress w =
    let w0 := record (HttpPost (renderUrl this) (build_payload url options)) w in
    match submitted env this url options with
    | Rejected e => (Rejected e, w0)
    | Resolved renderId =>
        match emit env onProgress (started_event renderId) w0 with
        | (Rejected e, w1) => (Rejected e, w1)
        | (Resolved _, w1) =>
            poll env this onProgress renderId 60 60 0 (record (Timer (Fin 2000)) w1)
        end
    end.
Proof.
  unfold render, createRender, submitted, renderUrl, fetch_post.
  unfold mbind at 1, M_bind at 1. unfold mbind at 3, M_bind at 3. cbv zeta.
  destruct (post_renders env _ _) as [?|? ?|[created|]]; try reflexivity.
  unfold mbind at 1, M_bind at 1.
  destruct created; try reflexivity;
    cbn [destructure_renderId mret M_ret];
    unfold mbind at 1, M_bind at 1;
    (destruct (emit _ _ _ _) as [[[]|?] ?]; reflexivity).
Qed.

Lemma submitted_not_terminal url options e :
  submitted env this url options = Rejected e ->
  terminal_outcome (Rejected e) = None.
Proof.
  unfold submitted.
  destruct (post_renders env _ _) as [?|? ?|[created|]].
  - by intros [= <-].
  - by intros [= <-].
  - destruct created; intros [= <-]; reflexivity.
  - by intros [= <-].
Qed.


(** The order of events read off the way a run ended. *)
Lemma render_ordered url options f out w' last :
  render env this url options (Handler f) init_world = (out, w') ->
  terminal_outcome out = Some last ->
  exists n,
    (1 <= n <= 60)%nat /\
    fetch_count (log w') = n /\
    map shape (events_of (log w')) = lifecycle n last /\
    (last = completed \/ last = failed) /\
    (last = completed <->
     exists result, out = Resolved result /\
                    is_string (get_prop result "status") "completed" = true).
Proof.
  intros Hrun Hlast. rewrite render_unfold in Hrun. cbv zeta in Hrun.
  destruct (submitted env this url options) as [renderId|e] eqn:Hsub.
  2:{ injection Hrun as <- <-. apply submitted_not_terminal in Hsub. congruence. }
  destruct (emit _ _ _ _) as [[[]|e] w1] eqn:Hstart.
  2:{ injection Hrun as <- <-.
      apply emit_run in Hstart as [_ [?|(? & ? & _ & [= ->] & _)]]; discriminate. }
  apply emit_run in Hstart as [-> _].
  apply poll_ordered with (last := last) in Hrun as (n & Hn & Hfc & Hev & Hout);
    [|done].
  exists n. split; [done|]. split; [|split; [|split]].
  - rewrite Hfc, fetch_count_record_timer, fetch_count_delivered. cbn. lia.
  - rewrite Hev, events_record_timer, events_delivered. reflexivity.
  - destruct out as [?|[]]; cbn in Hlast; try discriminate.
    + injection Hlast as <-. by left.
    + destruct (String.prefix _ _); [|discriminate]. injection Hlast as <-. by right.
  - done.
Qed.


Lemma poll_reaches_terminal f renderId maxAttempts k :
  forall remaining attempt w result out w',
  (k < remaining)%nat ->
  (forall j, (j < k)%nat ->
     exists earlier, settled env this renderId (polls w + j) = Resolved earlier /\
                     terminal earlier = false) ->
  settled env this renderId (polls w + k) = Resolved result ->
  terminal result = true ->
  poll env this (Handler f) renderId maxAttempts remaining attempt w = (out, w') ->
  (exists v, out = Rejected (CallbackThrew v)) \/
  (out = ending result /\
   fetch_count (log w') = (fetch_count (log w) + S k)%nat /\
   map shape (events_of (log w')) =
     map shape (events_of (log w))
     ++ map (fun n => (polling, Some n)) (seq (attempt + 1) (S k))
     ++ [(ending_event result, None)] /\
   exists earlier timestamp,
     log w' = earlier
              ++ [Progress (terminal_event (ending_event result) renderId result
                              timestamp)]).
Proof.
  induction k as [|k IH];
    intros [|remaining] attempt w result out w' Hk Hbefore Hres Hterm Hrun;
    try lia; rewrite poll_unfold in Hrun; cbv zeta in Hrun.
  - rewrite Nat.add_0_r in Hres. rewrite Hres in Hrun.
    destruct (emit _ _ _ _) as [[[]|e] w2] eqn:Hpoll.
    2:{ injection Hrun as <- <-.
        apply emit_run in Hpoll as [_ [[=]|(? & v & _ & [= ->] & _)]]. eauto. }
    apply emit_run in Hpoll as [-> _].
    set (w2 := delivered _ _ _ _) in *.
    assert (Hev2 : map shape (events_of (log w2)) =
                   map shape (events_of (log w)) ++ [(polling, Some (attempt + 1)%nat)]).
    { subst w2. by rewrite events_delivered, events_polled, map_app. }
    assert (Hfc2 : fetch_count (log w2) = S (fetch_count (log w))).
    { subst w2. by rewrite fetch_count_delivered, fetch_count_polled. }
    unfold ending, ending_event. unfold terminal in Hterm.
    destruct (is_string (get_prop result "status") "completed") eqn:Hc.
    + destruct (emit _ _ _ w2) as [[[]|e] w3] eqn:Hdone.
      2:{ injection Hrun as <- <-.
          apply emit_run in Hdone as [_ [[=]|(? & v & _ & [= ->] & _)]]. eauto. }
      assert (w' = delivered env (Handler f)
                     (terminal_event completed renderId result) w2) as ->
        by (apply emit_run in Hdone as [-> _]; congruence).
      right. split; [congruence|]. split; [|split].
      * rewrite fetch_count_delivered. lia.
      * rewrite events_delivered, map_app, Hev2, <- app_assoc. reflexivity.
      * by eexists _, _.
    + cbn in Hterm. rewrite Hterm in Hrun.
      destruct (emit _ _ _ w2) as [[[]|e] w3] eqn:Hdone.
      2:{ injection Hrun as <- <-.
          apply emit_run in Hdone as [_ [[=]|(? & v & _ & [= ->] & _)]]. eauto. }
      assert (w' = delivered env (Handler f)
                     (terminal_event failed renderId result) w2) as ->
        by (apply emit_run in Hdone as [-> _]; congruence).
      right. split; [congruence|]. split; [|split].
      * rewrite fetch_count_delivered. lia.
      * rewrite events_delivered, map_app, Hev2, <- app_assoc. reflexivity.
      * by eexists _, _.
  - destruct (Hbefore 0%nat) as (first & Hfirst & Hnot); [lia|].
    rewrite Nat.add_0_r in Hfirst. rewrite Hfirst in Hrun.
    destruct (emit _ _ _ _) as [[[]|e] w2] eqn:Hpoll.
    2:{ injection Hrun as <- <-.
        apply emit_run in Hpoll as [_ [[=]|(? & v & _ & [= ->] & _)]]. eauto. }
    apply emit_run in Hpoll as [-> _].
    set (w2 := delivered _ _ _ _) in *.
    assert (Hev2 : map shape (events_of (log w2)) =
                   map shape (events_of (log w)) ++ [(polling, Some (attempt + 1)%nat)]).
    { subst w2. by rewrite events_delivered, events_polled, map_app. }
    assert (Hfc2 : fetch_count (log w2) = S (fetch_count (log w))).
    { subst w2. by rewrite fetch_count_delivered, fetch_count_polled. }
    assert (Hp2 : polls w2 = S (polls w)).
    { subst w2. by rewrite polls_delivered. }
    apply orb_false_elim in Hnot as [Hc Hf]. rewrite Hc, Hf in Hrun.
    eapply (IH remaining (attempt + 1)%nat _ result) in Hrun;
      [|lia| |cbn [record polls]; rewrite Hp2;
              by replace (S (polls w) + k)%nat with (polls w + S k)%nat by lia
       |done].
    2:{ intros j Hj. cbn [record polls]. rewrite Hp2.
        destruct (Hbefore (S j)) as (r & Hr & Ht); [lia|].
        exists r. split; [|done].
        by replace (S (polls w) + j)%nat with (polls w + S j)%nat by lia. }
    destruct Hrun as [?|(Hout & Hfc & Hev & Hlast)]; [by left|right].
    split; [done|]. split; [|split; [|done]].
    + rewrite Hfc, fetch_count_record_timer, Hfc2. lia.
    + rewrite Hev, events_record_timer, Hev2, <- app_assoc.
      cbn [seq map app].
      by replace (attempt + 1 + 1)%nat with (S (attempt + 1)) by lia.
Qed.

Lemma render_reaches_terminal url options f out w' renderId k result :
  render env this url options (Handler f) init_world = (out, w') ->
  submitted env this url options = Resolved renderId ->
  (k < 60)%nat ->
  (forall j, (j < k)%nat ->
     exists earlier, settled env this renderId j = Resolved earlier /\
                     terminal earlier = false) ->
  settled env this renderId k = Resolved result ->
  terminal result = true ->
  (exists v, out = Rejected (CallbackThrew v)) \/
  (out = ending result /\
   fetch_count (log w') = S k /\
   map shape (events_of (log w')) = lifecycle (S k) (ending_event result) /\
   exists earlier timestamp,
     log w' = earlier
              ++ [Progress (terminal_event (ending_event result) renderId result
                              timestamp)]).
Proof.
  intros Hrun Hsub Hk Hbefore Hres Hterm.
  rewrite render_unfold in Hrun. cbv zeta in Hrun. rewrite Hsub in Hrun.
  destruct (emit _ _ _ _) as [[[]|e] w1] eqn:Hstart.
  2:{ injection Hrun as <- <-.
      apply emit_run in Hstart as [_ [[=]|(? & v & _ & [= ->] & _)]]. eauto. }
  apply emit_run in Hstart as [-> _].
  eapply (poll_reaches_terminal f renderId 60 k) in Hrun; [|done| | |done].
  - destruct Hrun as [?|(Hout & Hfc & Hev & Hlast)]; [by left|right].
    split; [done|]. split; [|split; [|done]].
    + rewrite Hfc, fetch_count_record_timer, fetch_count_delivered. cbn. lia.
    + rewrite Hev, events_record_timer, events_delivered. reflexivity.
  - intros j Hj. cbn [record polls]. rewrite polls_delivered. by apply Hbefore.
  - cbn [record polls]. by rewrite polls_delivered.
Qed.

(** *** A callback that throws *)

Lemma app_snoc_split {A} (l earlier later : list A) (a b : A) :
  l ++ [a] = earlier ++ b :: later ->
  (later = [] /\ earlier = l /\ b = a) \/
  (exists later', later = later' ++ [a] /\ l = earlier ++ b :: later').
Proof.
  destruct later as [|x later _] using rev_ind.
  - intros [-> ->]%app_inj_tail. by left.
  - rewrite app_comm_cons, app_assoc.
    intros [-> ->]%app_inj_tail. right. eauto.
Qed.

Lemma taken_snoc_action f l a :
  is_progress a = false -> taken f l -> taken f (l ++ [a]).
Proof.
  intros Ha Hl earlier e later [(_ & _ & <-)|(later' & _ & ->)]%app_snoc_split.
  - discriminate Ha.
  - by eapply Hl.
Qed.

Lemma taken_snoc_event f l e :
  f (events_of l) e = None -> taken f l -> taken f (l ++ [Progress e]).
Proof.
  intros He Hl earlier e' later [(_ & -> & [= ->])|(later' & _ & ->)]%app_snoc_split.
  - done.
  - by eapply Hl.
Qed.

Lemma emit_taken f event w out w' :
  emit env (Handler f) event w = (out, w') ->
  taken f (log w) ->
  (out = Resolved () /\ taken f (log w')) \/ aborted_by f out (log w').
Proof.
  cbn. destruct (f _ _) as [v|] eqn:Hf; intros [= <- <-] Hw.
  - right. by eexists _, _, _.
  - left. split; [done|]. by apply taken_snoc_event.
Qed.

Lemma settled_own_error renderId k e v :
  settled env this renderId k = Rejected e -> e <> CallbackThrew v.
Proof.
  unfold settled.
  destruct (get_render env k _) as [?|? ?|[result|]]; try by intros [= <-].
  destruct result; cbn; by intros [= <-].
Qed.

Lemma submitted_own_error url options e v :
  submitted env this url options = Rejected e -> e <> CallbackThrew v.
Proof.
  unfold submitted.
  destruct (post_renders env _ _) as [?|? ?|[created|]]; try by intros [= <-].
  destruct created; by intros [= <-].
Qed.

Lemma poll_taken f renderId maxAttempts remaining attempt w out w' :
  poll env this (Handler f) renderId maxAttempts remaining attempt w = (out, w') ->
  taken f (log w) ->
  (taken f (log w') /\ forall v, out <> Rejected (CallbackThrew v)) \/
  aborted_by f out (log w').
Proof.
  revert attempt w.
  induction remaining as [|remaining IH]; intros attempt w Hrun Hw.
  { cbn in Hrun. injection Hrun as <- <-. by left. }
  rewrite poll_unfold in Hrun. cbv zeta in Hrun.
  assert (Hw1 : taken f (log (polled this renderId w))).
  { by apply taken_snoc_action. }
  destruct (settled env this renderId (polls w)) as [result|e] eqn:Hres.
  2:{ injection Hrun as <- <-. left. split; [done|].
      intros v [= ->]. by eapply settled_own_error. }
  destruct (emit _ _ _ _) as [out2 w2] eqn:Hpoll.
  destruct (emit_taken _ _ _ _ _ Hpoll Hw1) as [[-> Hw2]|Habort].
  2:{ right. destruct Habort as (before & e & v & Hlog & Hbefore & Hf & ->).
      injection Hrun as <- <-. by eexists _, _, _. }
  destruct (is_string (get_prop result "status") "completed").
  { destruct (emit _ _ _ _) as [out3 w3] eqn:Hdone.
    destruct (emit_taken _ _ _ _ _ Hdone Hw2) as [[-> Hw3]|Habort].
    - injection Hrun as <- <-. by left.
    - right. destruct Habort as (before & e & v & Hlog & Hbefore & Hf & ->).
      injection Hrun as <- <-. by eexists _, _, _. }
  destruct (is_string (get_prop result "status") "failed").
  { destruct (emit _ _ _ _) as [out3 w3] eqn:Hdone.
    destruct (emit_taken _ _ _ _ _ Hdone Hw2) as [[-> Hw3]|Habort].
    - injection Hrun as <- <-. by left.
    - right. destruct Habort as (before & e & v & Hlog & Hbefore & Hf & ->).
      injection Hrun as <- <-. by eexists _, _, _. }
  eapply IH; [exact Hrun|]. by apply taken_snoc_action.
Qed.

Lemma render_taken url options f out w' :
  render env this url options (Handler f) init_world = (out, w') ->
  (taken f (log w') /\ forall v, out <> Rejected (CallbackThrew v)) \/
  aborted_by f out (log w').
Proof.
  intros Hrun. rewrite render_unfold in Hrun. cbv zeta in Hrun.
  assert (Hw0 : taken f (log (record (HttpPost (renderUrl this)
                                        (build_payload url options)) init_world))).
  { intros earlier e later Hsplit. cbn in Hsplit.
    destruct earlier as [|? [|? ?]]; discriminate. }
  destruct (submitted env this url options) as [renderId|err] eqn:Hsub.
  2:{ injection Hrun as <- <-. left. split; [done|].
      intros v [= ->]. by eapply submitted_own_error. }
  destruct (emit _ _ _ _) as [out1 w1] eqn:Hstart.
  destruct (emit_taken _ _ _ _ _ Hstart Hw0) as [[-> Hw1]|Habort].
  2:{ right. destruct Habort as (before & e & v & Hlog & Hbefore & Hf & ->).
      injection Hrun as <- <-. by eexists _, _, _. }
  eapply poll_taken; [exact Hrun|]. by apply taken_snoc_action.
Qed.

Lemma render_aborts_where_thrown url options f out w' earlier e later v :
  render env this url options (Handler f) init_world = (out, w') ->
  log w' = earlier ++ Progress e :: later ->
  f (events_of earlier) e = Some v ->
  out = Rejected (CallbackThrew v) /\ later = [].
Proof.
  intros Hrun Hsplit Hthrown.
  apply render_taken in Hrun
    as [[Htaken _]|(before & e' & v' & Hlog & Hbefore & Hf & ->)].
  - apply Htaken in Hsplit. congruence.
  - rewrite Hlog in Hsplit.
    apply app_snoc_split in Hsplit
      as [(-> & -> & [= ->])|(later' & _ & Hin)].
    + split; [congruence|done].
    + apply Hbefore in Hin. congruence.
Qed.

Lemma render_throws_what_was_thrown url options f out w' v :
  render env this url options (Handler f) init_world = (out, w') ->
  out = Rejected (CallbackThrew v) ->
  exists before e,
    log w' = before ++ [Progress e] /\ f (events_of before) e = Some v.
Proof.
  intros Hrun ->.
  apply render_taken in Hrun
    as [[_ Hown]|(before & e & v' & Hlog & _ & Hf & [= ->])].
  - by destruct (Hown v).
  - eauto.
Qed.
(** C1.  A run of [render] with a handler.  If it ends on a terminal
    outcome (it returns the result, or throws the error of a failed render),
    the handler was given one [started], then one [polling] per status fetch
    numbered from 1, then the one terminal event, [completed] exactly when
    the result is returned.  And it does end so whenever the service reaches
    a terminal status: if fetch [k + 1] (of at most 60) is the first with a
    terminal result, then, unless the handler throws on an event and cuts
    the run short there, the events are [started], [polling] 1 to [k + 1]
    and the terminal event of that result, delivered last, and [render]
    returns that result when it is completed and throws the error with its
    failure message when it is failed. *)
Theorem render_event_order url options f out w' :
  render env this url options (Handler f) init_world = (out, w') ->
  (forall last,
     terminal_outcome out = Some last ->
     exists n,
       (1 <= n <= 60)%nat /\
       fetch_count (log w') = n /\
       map shape (events_of (log w')) = lifecycle n last /\
       (last = completed \/ last = failed) /\
       (last = completed <->
        exists result, out = Resolved result /\
                       is_string (get_prop result "status") "completed" = true)) /\
  (forall renderId k result,
     submitted env this url options = Resolved renderId ->
     (k < 60)%nat ->
     (forall j, (j < k)%nat ->
        exists earlier, settled env this renderId j = Resolved earlier /\
                        terminal earlier = false) ->
     settled env this renderId k = Resolved result ->
     terminal result = true ->
     (exists v before e,
        out = Rejected (CallbackThrew v) /\
        log w' = before ++ [Progress e] /\
        f (events_of before) e = Some v) \/
     (out = ending result /\
      fetch_count (log w') = S k /\
      map shape (events_of (log w')) = lifecycle (S k) (ending_event result) /\
      exists earlier timestamp,
        log w' = earlier
                 ++ [Progress (terminal_event (ending_event result) renderId result
                                 timestamp)])).
Proof.
  intros Hrun. split.
  - intros last. by apply (render_ordered url options f).
  - intros renderId k result Hsub Hk Hbefore Hres Hterm.
    destruct (render_reaches_terminal url options f out w' renderId k result)
      as [[v ->]|Hends]; try done; [left|by right].
    destruct (render_throws_what_was_thrown url options f _ w' v Hrun eq_refl)
      as (before & e & Hlog & Hf).
    by exists v, before, e.
Qed.

(** *** How the log grows *)

Lemma polled_extends renderId w : log w `prefix_of` log (polled this renderId w).
Proof. by eexists. Qed.

Lemma delivered_extends onProgress event w :
  log w `prefix_of` log (delivered env onProgress event w).
Proof. destruct onProgress; [done|by eexists]. Qed.

Lemma record_extends a w : log w `prefix_of` log (record a w).
Proof. by eexists. Qed.



(** *** Runs whose callback returns normally *)

Lemma poll_unfold_normally onProgress renderId maxAttempts remaining attempt w :
  returns_normally onProgress ->
  poll env this onProgress renderId maxAttempts (S remaining) attempt w =
    match settled env this renderId (polls w) with
    | Rejected e => (Rejected e, polled this renderId w)
    | Resolved result =>
        let w2 := delivered env onProgress (polling_event renderId result attempt)
                    (polled this renderId w) in
        if is_string (get_prop result "status") "completed" then
          (Resolved result,
           delivered env onProgress (terminal_event completed renderId result) w2)
        else if is_string (get_prop result "status") "failed" then
          (Rejected (Error (failure_message result)),
           delivered env onProgress (terminal_event failed renderId result) w2)
        else
          poll env this onProgress renderId maxAttempts remaining (attempt + 1)
            (record (Timer (retry_delay result)) w2)
    end.
Proof.
  intros Hcb. rewrite poll_unfold. cbv zeta.
  destruct (settled env this renderId (polls w)) as [result|e]; [|reflexivity].
  rewrite !emit_normally by done.
  destruct (is_string _ "completed"); [reflexivity|].
  destruct (is_string _ "failed"); reflexivity.
Qed.

Lemma render_unfold_normally url options onProgress renderId :
  returns_normally onProgress ->
  submitted env this url options = Resolved renderId ->
  render env this url options onProgress init_world =
    poll env this onProgress renderId 60 60 0
      (record (Timer (Fin 2000))
         (delivered env onProgress (started_event renderId)
            (record (HttpPost (renderUrl this) (build_payload url options))
               init_world))).
Proof.
  intros Hcb Hsub. rewrite render_unfold. cbv zeta.
  by rewrite Hsub, emit_normally.
Qed.

Lemma poll_same onProgress renderId maxAttempts remaining attempt w1 w2 :
  returns_normally onProgress ->
  polls w1 = polls w2 ->
  transport_of (log w1) = transport_of (log w2) ->
  let with_callback :=
    poll env this onProgress renderId maxAttempts remaining attempt w1 in
  let without :=
    poll env this NoCallback renderId maxAttempts remaining attempt w2 in
  with_callback.1 = without.1 /\
  transport_of (log with_callback.2) = transport_of (log without.2).
Proof.
  intros Hcb. revert attempt w1 w2.
  induction remaining as [|remaining IH]; intros attempt w1 w2 Hpolls Htr; cbv zeta.
  { by cbn. }
  rewrite !poll_unfold_normally by done. rewrite Hpolls.
  destruct (settled env this renderId (polls w2)) as [result|e]; cbv zeta.
  2:{ cbn [fst snd]. by rewrite !transport_polled, Htr. }
  destruct (is_string _ "completed").
  { cbn [fst snd]. by rewrite !transport_delivered, !transport_polled, Htr. }
  destruct (is_string _ "failed").
  { cbn [fst snd]. by rewrite !transport_delivered, !transport_polled, Htr. }
  apply IH.
  - cbn [record polls]. rewrite !polls_delivered. cbn. by rewrite Hpolls.
  - by rewrite !transport_record_timer, !transport_delivered, !transport_polled, Htr.
Qed.

(** C8 (as amended).  With a callback that returns normally from every
    event, [render] makes the HTTP calls and sets the timers, in the same
    order, and ends in the result or error, of the run with no callback.  A
    handler that throws on an event cuts the run short there: that event is
    the last action of the run, and [render] throws what the handler threw. *)
Theorem render_callback_observational url options onProgress :
  (returns_normally onProgress ->
   let with_callback := render env this url options onProgress init_world in
   let without := render env this url options NoCallback init_world in
   with_callback.1 = without.1 /\
   transport_of (log with_callback.2) = transport_of (log without.2)) /\
  (forall f out w' earlier e later v,
     onProgress = Handler f ->
     render env this url options (Handler f) init_world = (out, w') ->
     log w' = earlier ++ Progress e :: later ->
     f (events_of earlier) e = Some v ->
     out = Rejected (CallbackThrew v) /\ later = []).
Proof.
  split.
  - intros Hcb. cbv zeta.
    destruct (submitted env this url options) as [renderId|e] eqn:Hsub.
    + rewrite !(render_unfold_normally _ _ _ renderId) by done.
      apply poll_same; [done|..].
      * cbn [record polls]. by rewrite !polls_delivered.
      * by rewrite !transport_record_timer, !transport_delivered.
    + rewrite !render_unfold. cbv zeta. by rewrite Hsub.
  - intros f out w' earlier e later v _. apply render_aborts_where_thrown.
Qed.

(** *** Delays, when the callback returns normally *)





Lemma events_of_type_app t l1 l2 :
  events_of_type t (l1 ++ l2) = events_of_type t l1 ++ events_of_type t l2.
Proof. unfold events_of_type. by rewrite events_of_app, List.filter_app. Qed.

Lemma events_of_type_polled t renderId w :
  events_of_type t (log (polled this renderId w)) = events_of_type t (log w).
Proof. cbn [polled log]. rewrite events_of_type_app. apply app_nil_r. Qed.

Lemma events_of_type_record_timer t ms w :
  events_of_type t (log (record (Timer ms) w)) = events_of_type t (log w).
Proof. cbn [record log]. rewrite events_of_type_app. apply app_nil_r. Qed.

Lemma events_of_type_delivered t onProgress event w :
  events_of_type t (log (delivered env onProgress event w)) =
    events_of_type t (log w)
    ++ match onProgress with
       | NoCallback => []
       | Handler _ =>
           if same_type (ev_type (event (now env (ticks w)))) t
           then [event (now env (ticks w))] else []
       end.
Proof.
  destruct onProgress; cbn [delivered log]; [by rewrite app_nil_r|].
  by rewrite events_of_type_app.
Qed.

Lemma poll_exhausts onProgress renderId maxAttempts remaining attempt w :
  returns_normally onProgress ->
  (forall k, (k < remaining)%nat ->
     exists result, settled env this renderId (polls w + k) = Resolved result /\
                    terminal result = false) ->
  exists w',
    poll env this onProgress renderId maxAttempts remaining attempt w =
      (Rejected (Error ("Render timed out after " +:+ pretty maxAttempts
                        +:+ " attempts")), w') /\
    fetch_count (log w') = (fetch_count (log w) + remaining)%nat /\
    length (events_of_type polling (log w')) =
      (length (events_of_type polling (log w)) + per_poll onProgress remaining)%nat /\
    events_of_type completed (log w') = events_of_type completed (log w) /\
    events_of_type failed (log w') = events_of_type failed (log w).
Proof.
  intros Hcb. revert attempt w.
  induction remaining as [|remaining IH]; intros attempt w Hall.
  { exists w. cbn [poll]. split; [done|]. split; [lia|]. split; [|done].
    destruct onProgress; cbn; lia. }
  rewrite poll_unfold_normally by done.
  destruct (Hall 0%nat) as (result & Hres & Hterm); [lia|].
  rewrite Nat.add_0_r in Hres. rewrite Hres. cbv zeta.
  apply orb_false_elim in Hterm as [-> ->].
  edestruct IH as (w' & Hrun & Hfc & Hpolling & Hcompleted & Hfailed);
    [|exists w'; split; [exact Hrun|]].
  { intros k Hk. cbn [record polls]. rewrite polls_delivered. cbn [polled polls].
    destruct (Hall (S k)) as (r & Hr & Ht); [lia|].
    exists r. split; [|done]. by replace (S (polls w) + k)%nat with (polls w + S k)%nat by lia. }
  split; [|split; [|split]].
  - rewrite Hfc, fetch_count_record_timer, fetch_count_delivered, fetch_count_polled. lia.
  - rewrite Hpolling, events_of_type_record_timer, events_of_type_delivered,
      events_of_type_polled, length_app.
    destruct onProgress; cbn; lia.
  - rewrite Hcompleted, events_of_type_record_timer, events_of_type_delivered,
      events_of_type_polled.
    destruct onProgress; cbn; by rewrite app_nil_r.
  - rewrite Hfailed, events_of_type_record_timer, events_of_type_delivered,
      events_of_type_polled.
    destruct onProgress; cbn; by rewrite app_nil_r.
Qed.

(** C2 (as amended).  When the job was submitted, each of the 60 status
    fetches gives a result that is not terminal, and the callback, if any,
    returns normally, [render] fetches the status 60 times, delivers 60
    [polling] events to a handler and no terminal event, and throws the
    timeout error that names 60 attempts. *)
Theorem render_times_out url options onProgress renderId :
  submitted env this url options = Resolved renderId ->
  returns_normally onProgress ->
  (forall k, (k < 60)%nat ->
     exists result, settled env this renderId k = Resolved result /\
                    terminal result = false) ->
  exists w',
    render env this url options onProgress init_world =
      (Rejected (Error "Render timed out after 60 attempts"), w') /\
    fetch_count (log w') = 60%nat /\
    length (events_of_type polling (log w')) = per_poll onProgress 60 /\
    events_of_type completed (log w') = [] /\
    events_of_type failed (log w') = [].
Proof.
  intros Hsub Hcb Hall.
  rewrite (render_unfold_normally _ _ _ renderId) by done.
  match goal with
  | |- context [poll _ _ _ _ _ _ _ ?w] =>
      destruct (poll_exhausts onProgress renderId 60 60 0 w Hcb)
        as (w' & Hrun & Hfc & Hpolling & Hcompleted & Hfailed)
  end.
  { intros k Hk. cbn [record polls]. rewrite polls_delivered. by apply Hall. }
  exists w'. split; [exact Hrun|]. split; [|split; [|split]].
  - rewrite Hfc, fetch_count_record_timer, fetch_count_delivered. reflexivity.
  - rewrite Hpolling, events_of_type_record_timer, events_of_type_delivered.
    destruct onProgress; reflexivity.
  - rewrite Hcompleted, events_of_type_record_timer, events_of_type_delivered.
    destruct onProgress; reflexivity.
  - rewrite Hfailed, events_of_type_record_timer, events_of_type_delivered.
    destruct onProgress; reflexivity.
Qed.

Lemma failed_not_completed v :
  is_string v "failed" = true -> is_string v "completed" = false.
Proof.
  destruct v; try discriminate. cbn.
  intros ->%String.eqb_eq. reflexivity.
Qed.

Lemma poll_fails onProgress renderId maxAttempts k :
  returns_normally onProgress ->
  forall remaining attempt w result,
  (k < remaining)%nat ->
  (forall j, (j < k)%nat ->
     exists earlier, settled env this renderId (polls w + j) = Resolved earlier /\
                     terminal earlier = false) ->
  settled env this renderId (polls w + k) = Resolved result ->
  is_string (get_prop result "status") "failed" = true ->
  exists w' added,
    poll env this onProgress renderId maxAttempts remaining attempt w =
      (Rejected (Error (failure_message result)), w') /\
    log w' = log w ++ added /\
    (forall f, onProgress = Handler f -> ends_on_failed renderId result added).
Proof.
  intros Hcb.
  induction k as [|k IH]; intros [|remaining] attempt w result Hk Hbefore Hres Hfailed;
    try lia; rewrite poll_unfold_normally by done.
  - rewrite Nat.add_0_r in Hres. rewrite Hres. cbv zeta.
    rewrite (failed_not_completed _ Hfailed), Hfailed.
    destruct onProgress as [|f].
    + eexists _, [_]. split; [reflexivity|]. split; [reflexivity|]. discriminate.
    + eexists _, [_; _; _]. split; [reflexivity|].
      split; [cbn [delivered polled log]; by rewrite <- !app_assoc|].
      intros _ _. eexists [_; _], _. split; reflexivity.
  - destruct (Hbefore 0%nat) as (first & Hfirst & Hterm); [lia|].
    rewrite Nat.add_0_r in Hfirst. rewrite Hfirst. cbv zeta.
    apply orb_false_elim in Hterm as [-> ->].
    match goal with
    | |- context [poll _ _ _ _ _ _ _ ?w0] =>
        destruct (IH remaining (attempt + 1)%nat w0 result)
          as (w' & added & Hrun & Hlog & Hends); [lia| | |exact Hfailed|]
    end.
    { intros j Hj. cbn [record polls]. rewrite polls_delivered. cbn [polled polls].
      destruct (Hbefore (S j)) as (r & Hr & Ht); [lia|].
      exists r. split; [|done].
      by replace (S (polls w) + j)%nat with (polls w + S j)%nat by lia. }
    { cbn [record polls]. rewrite polls_delivered. cbn [polled polls].
      by replace (S (polls w) + k)%nat with (polls w + S k)%nat by lia. }
    rewrite Hrun.
    destruct onProgress as [|f].
    + eexists _, (_ :: _ :: added). split; [reflexivity|].
      split; [|discriminate].
      rewrite Hlog. cbn [record delivered polled log]. by rewrite <- !app_assoc.
    + eexists _, (_ :: _ :: _ :: added). split; [reflexivity|].
      split; [rewrite Hlog; cbn [record delivered polled log];
              by rewrite <- !app_assoc|].
      intros _ _. destruct (Hends f eq_refl) as (earlier & timestamp & -> & Hone).
      eexists (_ :: _ :: _ :: earlier), timestamp. split; [reflexivity|].
      exact Hone.
Qed.

Lemma failure_message_carries result message :
  get_prop result "error" = JStr message -> message <> "" ->
  failure_message result = "Render failed: " +:+ message.
Proof.
  intros Herr Hne. unfold failure_message. rewrite Herr. cbn.
  apply String.eqb_neq in Hne. by rewrite Hne.
Qed.

Lemma failure_message_unknown result :
  truthy (get_prop result "error") = false ->
  failure_message result = "Render failed: Unknown error".
Proof. intros Herr. unfold failure_message. by rewrite Herr. Qed.

(** C5 (as amended).  When the job was submitted, the first status fetch
    with a terminal result reports [failed], and the callback, if any,
    returns normally, [render] throws the error whose message carries the
    server's error message, or "Unknown error" when there is none; a
    handler has then received the [failed] event, last and once. *)
Theorem render_fails url options onProgress renderId k result :
  submitted env this url options = Resolved renderId ->
  returns_normally onProgress ->
  (k < 60)%nat ->
  (forall j, (j < k)%nat ->
     exists earlier, settled env this renderId j = Resolved earlier /\
                     terminal earlier = false) ->
  settled env this renderId k = Resolved result ->
  is_string (get_prop result "status") "failed" = true ->
  exists w',
    render env this url options onProgress init_world =
      (Rejected (Error (failure_message result)), w') /\
    (forall f, onProgress = Handler f -> ends_on_failed renderId result (log w')) /\
    (forall message,
       get_prop result "error" = JStr message -> message <> "" ->
       failure_message result = "Render failed: " +:+ message) /\
    (truthy (get_prop result "error") = false ->
     failure_message result = "Render failed: Unknown error").
Proof.
  intros Hsub Hcb Hk Hbefore Hres Hfailed.
  rewrite (render_unfold_normally _ _ _ renderId) by done.
  match goal with
  | |- context [poll _ _ _ _ _ _ _ ?w] =>
      destruct (poll_fails onProgress renderId 60 k Hcb 60%nat 0%nat w result)
        as (w' & added & Hrun & Hlog & Hends)
  end; try done.
  { intros j Hj. cbn [record polls]. rewrite polls_delivered. by apply Hbefore. }
  { cbn [record polls]. by rewrite polls_delivered. }
  exists w'. split; [exact Hrun|]. split; [|split].
  - intros f ->. destruct (Hends f eq_refl) as (earlier & timestamp & -> & Hone).
    eexists (_ ++ earlier), timestamp. rewrite Hlog.
    split; [by rewrite <- app_assoc|].
    rewrite events_of_type_app, Hone. reflexivity.
  - apply failure_message_carries.
  - apply failure_message_unknown.
Qed.
End Lifecycle.

(** * The properties at concrete inputs *)

(** The terminal ordering scenario: statuses processing, processing,
    completed with [retryAfter] 1, 1. *)
Example terminal_ordering_scenario :
  map shape (events_of (log (run ordering_env recorder).2)) =
    [(started, None); (polling, Some 1%nat); (polling, Some 2%nat);
     (polling, Some 3%nat); (completed, None)] /\
  (run ordering_env recorder).1 = Resolved (status_only "completed").
Proof. vm_compute. split; reflexivity. Qed.

Lemma render_event_order_witness :
  (run ordering_env recorder).1 = Resolved (status_only "completed") /\
  fetch_count (log (run ordering_env recorder).2) = 3%nat /\
  map shape (events_of (log (run ordering_env recorder).2)) = lifecycle 3 completed /\
  (run failing_env recorder).1 = Rejected (Error "Render failed: blocked") /\
  fetch_count (log (run failing_env recorder).2) = 1%nat /\
  map shape (events_of (log (run failing_env recorder).2)) = lifecycle 1 failed.
Proof.
  destruct (render_event_order (rt := mock_runtime) ordering_env mock_client
              example_url ∅ (fun _ _ => None) _ _ (surjective_pairing _))
    as [_ Hcompleted].
  destruct (render_event_order (rt := mock_runtime) failing_env mock_client
              example_url ∅ (fun _ _ => None) _ _ (surjective_pairing _))
    as [_ Hfailed].
  assert (Hbefore : forall j, (j < 2)%nat ->
            exists earlier,
              settled (H := mock_runtime) ordering_env mock_client (JStr "r1") j
                = Resolved earlier /\ terminal earlier = false).
  { intros [|[|j]] Hj; [| |lia]; exists (processing_for 1); split; reflexivity. }
  destruct (Hcompleted (JStr "r1") 2%nat (status_only "completed") eq_refl
              ltac:(lia) Hbefore eq_refl eq_refl)
    as [(v & before & e & _ & _ & Hthrew)|(Hout & Hfetches & Hevents & _)];
    [discriminate Hthrew|].
  destruct (Hfailed (JStr "r1") 0%nat blocked eq_refl ltac:(lia)
              ltac:(intros j Hj; lia) eq_refl eq_refl)
    as [(v & before & e & _ & _ & Hthrew)|(Hout' & Hfetches' & Hevents' & _)];
    [discriminate Hthrew|].
  split; [exact Hout|]. split; [exact Hfetches|]. split; [exact Hevents|].
  split; [exact Hout'|]. split; [exact Hfetches'|exact Hevents'].
Defined.

Lemma render_times_out_witness :
  exists w',
    render (rt := mock_runtime) always_processing_env mock_client example_url ∅
      recorder init_world =
      (Rejected (Error "Render timed out after 60 attempts"), w') /\
    fetch_count (log w') = 60%nat /\
    length (events_of_type polling (log w')) = per_poll recorder 60 /\
    events_of_type completed (log w') = [] /\
    events_of_type failed (log w') = [].
Proof.
  apply (render_times_out (rt := mock_runtime) always_processing_env mock_client
           example_url ∅ recorder (JStr "r1")).
  - reflexivity.
  - intros history e. reflexivity.
  - intros k _. exists (status_only "processing"). split; reflexivity.
Defined.

(** C2, the claim as written fails: every one of the 60 status fetches gives
    processing and 60 polling events are delivered, and what [render] throws
    is what the handler threw on the last of them. *)
Lemma timeout_lost_to_throwing_callback :
  (forall k, settled (H := mock_runtime) always_processing_env mock_client (JStr "r1") k
             = Resolved (status_only "processing")) /\
  terminal (status_only "processing") = false /\
  fetch_count (log (run always_processing_env (throws_on polling (Some 60%nat))).2)
    = 60%nat /\
  length (events_of_type polling
            (log (run always_processing_env (throws_on polling (Some 60%nat))).2))
    = 60%nat /\
  (run always_processing_env (throws_on polling (Some 60%nat))).1
    = Rejected (CallbackThrew (JStr "boom")) /\
  (run always_processing_env (throws_on polling (Some 60%nat))).1
    <> Rejected (Error "Render timed out after 60 attempts").
Proof.
  split; [reflexivity|]. split; [reflexivity|].
  assert ((run always_processing_env (throws_on polling (Some 60%nat))).1
          = Rejected (CallbackThrew (JStr "boom"))) as Hout by (vm_compute; reflexivity).
  split; [vm_compute; reflexivity|]. split; [vm_compute; reflexivity|].
  split; [exact Hout|]. rewrite Hout. discriminate.
Qed.

Lemma render_fails_witness :
  exists w',
    run failing_env recorder = (Rejected (Error "Render failed: blocked"), w') /\
    ends_on_failed (JStr "r1") blocked (log w').
Proof.
  destruct (render_fails (rt := mock_runtime) failing_env mock_client example_url ∅
              recorder (JStr "r1") 0 blocked)
    as (w' & Hrun & Hends & _).
  - reflexivity.
  - intros history e. reflexivity.
  - lia.
  - intros j Hj. lia.
  - reflexivity.
  - reflexivity.
  - exists w'. split; [exact Hrun|]. by eapply Hends.
Defined.

(** C5, the claim as written fails: the first status fetch reports failed
    with error "blocked"; the handler throws on the polling event, no
    [failed] event is delivered and the error of [render] is the handler's. *)
Lemma failed_event_lost_to_throwing_callback :
  settled (H := mock_runtime) failing_env mock_client (JStr "r1") 0 = Resolved blocked /\
  is_string (get_prop blocked "status") "failed" = true /\
  events_of_type failed (log (run failing_env (throws_on polling (Some 1%nat))).2) = [] /\
  (run failing_env (throws_on polling (Some 1%nat))).1
    = Rejected (CallbackThrew (JStr "boom")) /\
  (run failing_env (throws_on polling (Some 1%nat))).1
    <> Rejected (Error "Render failed: blocked").
Proof.
  split; [reflexivity|]. split; [reflexivity|]. split; [reflexivity|].
  split; [reflexivity|]. discriminate.
Qed.



Lemma render_callback_observational_witness :
  ((run ordering_env recorder).1 = (run ordering_env NoCallback).1 /\
   transport_of (log (run ordering_env recorder).2) =
     transport_of (log (run ordering_env NoCallback).2)) /\
  (run completing_env (throws_on started None)).1
    = Rejected (CallbackThrew (JStr "boom")).
Proof.
  split.
  - destruct (render_callback_observational (rt := mock_runtime) ordering_env
                mock_client example_url ∅ recorder) as [Hsame _].
    apply Hsame. intros history e. reflexivity.
  - destruct (render_callback_observational (rt := mock_runtime) completing_env
                mock_client example_url ∅ (throws_on started None)) as [_ Hthrows].
    destruct (Hthrows _ _ _
                [HttpPost "https://api.browser7.com/v1/renders"
                   {["url" := JStr example_url]}]
                (started_event (JStr "r1") "t0") [] (JStr "boom")
                eq_refl (surjective_pairing _) eq_refl eq_refl) as [Hout _].
    exact Hout.
Defined.

(** C8, the claim as written fails: the service completes the job at the
    first poll; without a callback [render] returns the result after one
    status fetch, and with a handler that throws on [started] it throws what
    the handler threw and never fetches the status. *)
Lemma throwing_callback_alters_control_flow :
  (run completing_env NoCallback).1 = Resolved (status_only "completed") /\
  (run completing_env (throws_on started None)).1 = Rejected (CallbackThrew (JStr "boom")) /\
  fetch_count (log (run completing_env NoCallback).2) = 1%nat /\
  fetch_count (log (run completing_env (throws_on started None)).2) = 0%nat /\
  ~ (forall onProgress,
       (run completing_env onProgress).1 = (run completing_env NoCallback).1 /\
       transport_of (log (run completing_env onProgress).2) =
         transport_of (log (run completing_env NoCallback).2)).
Proof.
  split; [reflexivity|]. split; [reflexivity|].
  split; [reflexivity|]. split; [reflexivity|].
  intros H. destruct (H (throws_on started None)) as [Hout _].
  discriminate Hout.
Qed.

Lemma getRender_absorbs_decode_failure_witness :
  exists fields',
    fetch_once plain_fields = Resolved (JObj fields') /\
    fields' !! "html" = Some (JStr "<html></html>") /\
    fields' !! "fetchResponses" = Some (JArr []).
Proof.
  destruct (getRender_absorbs_decode_failure (rt := mock_runtime)
              (mock_env job_created [JObj plain_fields] JNull) mock_client
              (JStr "r1") init_world plain_fields eq_refl)
    as (fields' & Hrun & Hhtml & Hfetch).
  exists fields'. split; [exact Hrun|]. split.
  - rewrite Hhtml; [reflexivity|].
    right. right. by exists (String.list_byte_of_string "<html></html>").
  - rewrite Hfetch; [reflexivity|].
    right. left. right. by exists [].
Defined.

Lemma getRender_round_trip_witness :
  exists fields',
    fetch_once compressed_fields = Resolved (JObj fields') /\
    fields' !! "html" = Some (JStr "<html></html>") /\
    fields' !! "fetchResponses" = Some (JArr []).
Proof.
  destruct (getRender_round_trip (rt := mock_runtime) (enc := mock_encoding)
              (mock_env job_created [JObj compressed_fields] JNull) mock_client
              (JStr "r1") init_world compressed_fields eq_refl)
    as (fields' & Hrun & Hhtml & Hfetch).
  exists fields'. split; [exact Hrun|]. split.
  - by apply Hhtml.
  - by apply (Hfetch "[]").
Defined.


(** * Further properties *)

(** ** Construction and addresses *)

(** X1.  The constructor refuses exactly the options whose [apiKey] is falsy; the
    client it builds posts jobs to "<base>/renders" and reads job <id> at
    "<base>/renders/<id>", where <base> is the production address unless a
    non-empty [baseUrl] is given. *)
Theorem new_Browser7_addresses options :
  (truthy (get options "apiKey") = false /\
   new_Browser7 options = Rejected (Error "API key is required")) \/
  (truthy (get options "apiKey") = true /\
   exists this,
     new_Browser7 options = Resolved this /\
     apiKey this = get options "apiKey" /\
     (truthy (get options "baseUrl") = false ->
      renderUrl this = "https://api.browser7.com/v1/renders" /\
      forall id, statusUrl this (JStr id) =
                 "https://api.browser7.com/v1/renders/" +:+ id) /\
     (forall base, get options "baseUrl" = JStr base -> base <> "" ->
      renderUrl this = base +:+ "/renders" /\
      forall id, statusUrl this (JStr id) = base +:+ "/renders/" +:+ id)).
Proof.
  unfold new_Browser7.
  destruct (truthy (get options "apiKey")) eqn:Hkey; [right|left; done].
  split; [done|]. eexists. split; [reflexivity|]. split; [done|]. split.
  - intros ->. done.
  - intros base Hbase Hne. unfold renderUrl, statusUrl. cbn [baseUrl].
    rewrite Hbase. cbn [truthy].
    apply String.eqb_neq in Hne. rewrite Hne. done.
Qed.

(** ** The three HTTP methods *)

Section Methods.
Context {rt : Runtime} (env : Env) (this : Browser7).

(** X2.  [createRender] does one thing to the world, the POST, whatever the
    answer; it resolves exactly when the answer is ok and its body parses,
    and then with the body as it is: nothing checks that it carries a
    [renderId]. *)
Theorem createRender_one_post url options w :
  (createRender env this url options w).2 =
    record (HttpPost (renderUrl this) (build_payload url options)) w /\
  forall created,
    (createRender env this url options w).1 = Resolved created <->
    post_renders env (renderUrl this) (build_payload url options)
      = Accepted (Some created).
Proof.
  unfold createRender, renderUrl, mbind, M_bind, fetch_post. cbn.
  destruct (post_renders env _ _) as [?|? ?|[?|]]; cbn;
    (split; [reflexivity|]); intros created; split; congruence.
Qed.

(** X3.  [getRender] does one thing to the world, the GET of the job's address,
    whatever the answer; it resolves exactly when the answer is ok and its
    body parses to something other than [null]. *)
Theorem getRender_one_get renderId w :
  (getRender env this renderId w).2 = polled this renderId w /\
  ((exists result, (getRender env this renderId w).1 = Resolved result) <->
   exists body,
     get_render env (polls w) (statusUrl this renderId) = Accepted (Some body) /\
     body <> JNull /\ body <> JUndefined).
Proof.
  rewrite getRender_run. split; [reflexivity|]. cbn [fst]. unfold settled.
  destruct (get_render env _ _) as [?|? ?|[body|]].
  - split; [intros [? [=]]|intros (? & [=] & _)].
  - split; [intros [? [=]]|intros (? & [=] & _)].
  - split.
    + intros [result Hres]. exists body. split; [done|].
      destruct body; cbn in Hres; done.
    + intros (? & [= <-] & Hnull & Hundef).
      destruct body; cbn; try done; eauto.
  - split; [intros [? [=]]|intros (? & [=] & _)].
Qed.

(** X4.  [getAccountBalance] does one GET of the balance address and resolves
    exactly when the answer is ok and its body parses, with the body as it
    is: no field of it is decoded, and [null] is returned like any other. *)
Theorem getAccountBalance_untouched answer w :
  (getAccountBalance answer this w).2 = record (HttpGet (balanceUrl this)) w /\
  forall balance,
    (getAccountBalance answer this w).1 = Resolved balance <->
    answer (balanceUrl this) = Accepted (Some balance).
Proof.
  unfold getAccountBalance, mbind, M_bind. cbn.
  destruct (answer _) as [?|? ?|[?|]]; cbn;
    (split; [reflexivity|]); intros balance; split; congruence.
Qed.

(** X5.  An HTTP failure says which call failed: the messages of the three
    methods and the message of a connection failure start differently. *)
Theorem http_failures_tell_apart url options renderId answer w status text :
  post_renders env (renderUrl this) (build_payload url options) = Refused status text ->
  get_render env (polls w) (statusUrl this renderId) = Refused status text ->
  answer (balanceUrl this) = Refused status text ->
  exists m1 m2 m3,
    (createRender env this url options w).1 = Rejected (Error m1) /\
    (getRender env this renderId w).1 = Rejected (Error m2) /\
    (getAccountBalance answer this w).1 = Rejected (Error m3) /\
    String.prefix "Failed to start render: " m1 = true /\
    String.prefix "Failed to get render status: " m2 = true /\
    String.prefix "Failed to get account balance: " m3 = true /\
    String.prefix "Failed to connect to " m1 = false /\
    String.prefix "Failed to connect to " m2 = false /\
    String.prefix "Failed to connect to " m3 = false.
Proof.
  intros Hpost Hget Hbalance.
  eexists _, _, _. split; [|split; [|split]].
  - unfold createRender, renderUrl, mbind, M_bind, fetch_post in *. cbn.
    rewrite Hpost. reflexivity.
  - rewrite getRender_run. cbn [fst]. unfold settled. rewrite Hget. reflexivity.
  - unfold getAccountBalance, mbind, M_bind. cbn. rewrite Hbalance. reflexivity.
  - repeat split; try reflexivity; by destruct (pretty status +:+ " " +:+ text).
Qed.

End Methods.

(** ** More of the lifecycle *)

Section Lifecycle_more.
Context {rt : Runtime} (env : Env) (this : Browser7).

(** X6.  When the job cannot be submitted, [render] throws the error of the
    submission after the POST and does nothing else: no event reaches the
    callback (not even [failed]), no timer is set, no status is fetched. *)
Theorem render_aborts_on_submit_failure url options onProgress e w :
  submitted env this url options = Rejected e ->
  render env this url options onProgress w =
    (Rejected e, record (HttpPost (renderUrl this) (build_payload url options)) w).
Proof.
  intros Hsub. rewrite render_unfold. cbv zeta. by rewrite Hsub.
Qed.

(** The first [k] polls of a run whose callback returns normally, when none
    of them gives a terminal result. *)
Lemma poll_skips onProgress renderId maxAttempts k :
  returns_normally onProgress ->
  forall remaining attempt w,
  (forall j, (j < k)%nat ->
     exists earlier, settled env this renderId (polls w + j) = Resolved earlier /\
                     terminal earlier = false) ->
  exists wk,
    poll env this onProgress renderId maxAttempts (k + remaining) attempt w =
      poll env this onProgress renderId maxAttempts remaining (attempt + k) wk /\
    polls wk = (polls w + k)%nat /\
    log w `prefix_of` log wk /\
    fetch_count (log wk) = (fetch_count (log w) + k)%nat /\
    length (events_of_type polling (log wk)) =
      (length (events_of_type polling (log w)) + per_poll onProgress k)%nat /\
    events_of_type completed (log wk) = events_of_type completed (log w) /\
    events_of_type failed (log wk) = events_of_type failed (log w).
Proof.
  intros Hcb.
  induction k as [|k IH]; intros remaining attempt w Hbefore.
  { exists w. rewrite !Nat.add_0_r. cbn [Nat.add].
    repeat split; try done. destruct onProgress; cbn; lia. }
  cbn [Nat.add]. rewrite poll_unfold_normally by done.
  destruct (Hbefore 0%nat) as (first & Hfirst & Hterm); [lia|].
  rewrite Nat.add_0_r in Hfirst. rewrite Hfirst. cbv zeta.
  apply orb_false_elim in Hterm as [-> ->].
  match goal with
  | |- context [poll _ _ _ _ _ _ _ ?w0] =>
      destruct (IH remaining (attempt + 1)%nat w0)
        as (wk & Hrun & Hpolls & Hlog & Hfc & Hpolling & Hcompleted & Hfailed)
  end.
  { intros j Hj. cbn [record polls]. rewrite polls_delivered. cbn [polled polls].
    destruct (Hbefore (S j)) as (r & Hr & Ht); [lia|].
    exists r. split; [|done].
    by replace (S (polls w) + j)%nat with (polls w + S j)%nat by lia. }
  exists wk. split; [|split; [|split; [|split; [|split; [|split]]]]].
  - rewrite Hrun. f_equal. lia.
  - rewrite Hpolls. cbn [record polls]. rewrite polls_delivered. cbn. lia.
  - etrans; [|exact Hlog]. etrans; [apply polled_extends|].
    etrans; [apply delivered_extends|apply record_extends].
  - rewrite Hfc, fetch_count_record_timer, fetch_count_delivered, fetch_count_polled. lia.
  - rewrite Hpolling, events_of_type_record_timer, events_of_type_delivered,
      events_of_type_polled, length_app.
    destruct onProgress; cbn; lia.
  - rewrite Hcompleted, events_of_type_record_timer, events_of_type_delivered,
      events_of_type_polled.
    destruct onProgress; cbn; by rewrite app_nil_r.
  - rewrite Hfailed, events_of_type_record_timer, events_of_type_delivered,
      events_of_type_polled.
    destruct onProgress; cbn; by rewrite app_nil_r.
Qed.

(** The same from the start of [render]: after [k] polls without a terminal
    result the loop is at attempt [k] with [60 - k] turns to go. *)
Lemma render_skips url options onProgress renderId k :
  submitted env this url options = Resolved renderId ->
  returns_normally onProgress ->
  (k < 60)%nat ->
  (forall j, (j < k)%nat ->
     exists earlier, settled env this renderId j = Resolved earlier /\
                     terminal earlier = false) ->
  exists wk,
    render env this url options onProgress init_world =
      poll env this onProgress renderId 60 (S (59 - k)) k wk /\
    polls wk = k /\
    fetch_count (log wk) = k /\
    length (events_of_type polling (log wk)) = per_poll onProgress k /\
    events_of_type completed (log wk) = [] /\
    events_of_type failed (log wk) = [].
Proof.
  intros Hsub Hcb Hk Hbefore.
  rewrite (render_unfold_normally _ _ _ _ _ renderId) by done.
  match goal with
  | |- context [poll _ _ _ _ _ _ _ ?w0] =>
      destruct (poll_skips onProgress renderId 60 k Hcb (S (59 - k)) 0%nat w0)
        as (wk & Hrun & Hpolls & _ & Hfc & Hpolling & Hcompleted & Hfailed)
  end.
  { intros j Hj. cbn [record polls]. rewrite polls_delivered. by apply Hbefore. }
  replace (k + S (59 - k))%nat with 60%nat in Hrun by lia.
  exists wk. split; [exact Hrun|].
  cbn [record polls] in Hpolls. rewrite polls_delivered in Hpolls.
  rewrite events_of_type_record_timer, events_of_type_delivered in Hcompleted, Hfailed,
    Hpolling.
  rewrite fetch_count_record_timer, fetch_count_delivered in Hfc.
  split; [exact Hpolls|]. split; [exact Hfc|]. split; [|split].
  - rewrite Hpolling. destruct onProgress; reflexivity.
  - rewrite Hcompleted. destruct onProgress; reflexivity.
  - rewrite Hfailed. destruct onProgress; reflexivity.
Qed.

(** X7.  When a status fetch fails (connection, HTTP status, unreadable or null
    body) after [k] polls without a terminal result, [render] throws the
    error of that fetch at once: it has fetched [k + 1] times, and a handler
    that returns normally has received [k] polling events and no terminal
    event, not even [failed]. *)
Theorem render_stops_on_fetch_error url options onProgress renderId k e :
  submitted env this url options = Resolved renderId ->
  returns_normally onProgress ->
  (k < 60)%nat ->
  (forall j, (j < k)%nat ->
     exists earlier, settled env this renderId j = Resolved earlier /\
                     terminal earlier = false) ->
  settled env this renderId k = Rejected e ->
  exists w',
    render env this url options onProgress init_world = (Rejected e, w') /\
    fetch_count (log w') = S k /\
    length (events_of_type polling (log w')) = per_poll onProgress k /\
    events_of_type completed (log w') = [] /\
    events_of_type failed (log w') = [].
Proof.
  intros Hsub Hcb Hk Hbefore Hres.
  destruct (render_skips url options onProgress renderId k)
    as (wk & -> & Hpolls & Hfc & Hpolling & Hcompleted & Hfailed); try done.
  rewrite poll_unfold_normally, Hpolls, Hres by done.
  eexists. split; [reflexivity|].
  by rewrite fetch_count_polled, !events_of_type_polled, Hfc.
Qed.


(** X8.  When the first terminal result, at poll [k], is completed and the
    callback returns normally, [render] returns that very result (as
    [getRender] decoded it) after [k + 1] fetches; a handler has received
    [k + 1] polling events, then the [completed] event, last and once, and no
    [failed] event. *)
Theorem render_completes url options onProgress renderId k result :
  submitted env this url options = Resolved renderId ->
  returns_normally onProgress ->
  (k < 60)%nat ->
  (forall j, (j < k)%nat ->
     exists earlier, settled env this renderId j = Resolved earlier /\
                     terminal earlier = false) ->
  settled env this renderId k = Resolved result ->
  is_string (get_prop result "status") "completed" = true ->
  exists w',
    render env this url options onProgress init_world = (Resolved result, w') /\
    fetch_count (log w') = S k /\
    length (events_of_type polling (log w')) = per_poll onProgress (S k) /\
    events_of_type failed (log w') = [] /\
    (forall f, onProgress = Handler f -> ends_on_completed renderId result (log w')).
Proof.
  intros Hsub Hcb Hk Hbefore Hres Hdone.
  destruct (render_skips url options onProgress renderId k)
    as (wk & -> & Hpolls & Hfc & Hpolling & Hcompleted & Hfailed); try done.
  rewrite poll_unfold_normally, Hpolls, Hres by done. cbv zeta. rewrite Hdone.
  eexists. split; [reflexivity|]. split; [|split; [|split]].
  - by rewrite !fetch_count_delivered, fetch_count_polled, Hfc.
  - rewrite !events_of_type_delivered, events_of_type_polled, !length_app, Hpolling.
    destruct onProgress; cbn; lia.
  - rewrite !events_of_type_delivered, events_of_type_polled, Hfailed.
    destruct onProgress; reflexivity.
  - intros f ->. eexists _, _. split; [reflexivity|].
    rewrite !events_of_type_delivered, events_of_type_polled, Hcompleted.
    reflexivity.
Qed.

(** *** What no run does *)

Lemma post_count_app l1 l2 :
  post_count (l1 ++ l2) = (post_count l1 + post_count l2)%nat.
Proof. unfold post_count. by rewrite List.filter_app, length_app. Qed.

Lemma post_count_delivered onProgress event w :
  post_count (log (delivered env onProgress event w)) = post_count (log w).
Proof.
  destruct onProgress; cbn [delivered log]; [reflexivity|].
  rewrite post_count_app. cbn. lia.
Qed.

Lemma post_count_polled renderId w :
  post_count (log (polled this renderId w)) = post_count (log w).
Proof. cbn [polled log]. rewrite post_count_app. cbn. lia. Qed.

Lemma post_count_record_timer ms w :
  post_count (log (record (Timer ms) w)) = post_count (log w).
Proof. cbn [record log]. rewrite post_count_app. cbn. lia. Qed.

Lemma length_events_delivered onProgress event w :
  (length (events_of (log (delivered env onProgress event w)))
   <= S (length (events_of (log w))))%nat.
Proof.
  destruct onProgress; cbn [delivered log]; [lia|].
  rewrite events_of_app, length_app. cbn. lia.
Qed.

Lemma poll_bounded onProgress renderId maxAttempts remaining attempt w out w' :
  poll env this onProgress renderId maxAttempts remaining attempt w = (out, w') ->
  exists n,
    (n <= remaining)%nat /\
    fetch_count (log w') = (fetch_count (log w) + n)%nat /\
    (length (events_of (log w')) <= length (events_of (log w)) + n + 1)%nat /\
    post_count (log w') = post_count (log w).
Proof.
  revert attempt w.
  induction remaining as [|remaining IH]; intros attempt w Hrun.
  { cbn in Hrun. injection Hrun as <- <-. exists 0%nat. repeat split; lia. }
  rewrite poll_unfold in Hrun. cbv zeta in Hrun.
  pose proof (post_count_polled renderId w) as Hpost1.
  destruct (settled env this renderId (polls w)) as [result|e].
  2:{ injection Hrun as <- <-. exists 1%nat.
      rewrite fetch_count_polled, events_polled. repeat split; first [lia|done]. }
  destruct (emit _ _ _ _) as [out2 w2] eqn:Hpoll.
  apply emit_run in Hpoll as [-> _].
  pose proof (length_events_delivered onProgress
                (polling_event renderId result attempt) (polled this renderId w)) as Hev2.
  rewrite events_polled in Hev2.
  destruct out2 as [[]|e].
  2:{ injection Hrun as <- <-. exists 1%nat.
      rewrite fetch_count_delivered, fetch_count_polled, post_count_delivered.
      repeat split; first [lia|done]. }
  assert (Hlast : forall type out3 w3,
    emit env onProgress (terminal_event type renderId result)
      (delivered env onProgress (polling_event renderId result attempt)
         (polled this renderId w)) = (out3, w3) ->
    fetch_count (log w3) = (fetch_count (log w) + 1)%nat /\
    (length (events_of (log w3)) <= length (events_of (log w)) + 1 + 1)%nat /\
    post_count (log w3) = post_count (log w)).
  { intros type out3 w3 Hdone. apply emit_run in Hdone as [-> _].
    rewrite !fetch_count_delivered, fetch_count_polled, !post_count_delivered.
    split; [lia|]. split; [|done].
    etrans; [apply length_events_delivered|]. lia. }
  destruct (is_string (get_prop result "status") "completed").
  { destruct (emit _ _ _ _) as [out3 w3] eqn:Hdone. apply Hlast in Hdone.
    exists 1%nat. split; [lia|].
    destruct out3 as [[]|?]; injection Hrun as <- <-; exact Hdone. }
  destruct (is_string (get_prop result "status") "failed").
  { destruct (emit _ _ _ _) as [out3 w3] eqn:Hdone. apply Hlast in Hdone.
    exists 1%nat. split; [lia|].
    destruct out3 as [[]|?]; injection Hrun as <- <-; exact Hdone. }
  apply IH in Hrun as (n & Hn & Hfc & Hev & Hpost).
  exists (S n). split; [lia|]. split; [|split].
  - rewrite Hfc, fetch_count_record_timer, fetch_count_delivered, fetch_count_polled. lia.
  - rewrite events_record_timer in Hev. lia.
  - by rewrite Hpost, post_count_record_timer, post_count_delivered, Hpost1.
Qed.

(** X9.  Whatever the service answers and whatever the callback does, one run of
    [render] submits the job once, fetches its status at most 60 times, and
    calls the callback at most twice more than it fetched. *)
Theorem render_bounded url options onProgress out w' :
  render env this url options onProgress init_world = (out, w') ->
  post_count (log w') = 1%nat /\
  (fetch_count (log w') <= 60)%nat /\
  (length (events_of (log w')) <= fetch_count (log w') + 2)%nat.
Proof.
  intros Hrun. rewrite render_unfold in Hrun. cbv zeta in Hrun.
  destruct (submitted env this url options) as [renderId|e].
  2:{ injection Hrun as <- <-. cbn. lia. }
  destruct (emit _ _ _ _) as [out1 w1] eqn:Hstart.
  apply emit_run in Hstart as [-> _].
  pose proof (length_events_delivered onProgress (started_event renderId)
                (record (HttpPost (renderUrl this) (build_payload url options))
                   init_world)) as Hev1.
  destruct out1 as [[]|e].
  2:{ injection Hrun as <- <-.
      rewrite post_count_delivered, fetch_count_delivered. cbn in *. lia. }
  apply poll_bounded in Hrun as (n & Hn & Hfc & Hev & Hpost).
  rewrite fetch_count_record_timer, fetch_count_delivered in Hfc.
  rewrite events_record_timer in Hev.
  rewrite post_count_record_timer, post_count_delivered in Hpost.
  cbn in *. lia.
Qed.

Lemma poll_silent renderId maxAttempts remaining attempt w :
  events_of (log (poll env this NoCallback renderId maxAttempts remaining attempt w).2)
    = events_of (log w) /\
  ticks (poll env this NoCallback renderId maxAttempts remaining attempt w).2 = ticks w.
Proof.
  revert attempt w.
  induction remaining as [|remaining IH]; intros attempt w; [done|].
  rewrite poll_unfold_normally by done. cbv zeta.
  destruct (settled env this renderId (polls w)) as [result|e].
  2:{ cbn [snd]. by rewrite events_polled. }
  cbn [delivered].
  destruct (is_string _ "completed"); [cbn [snd]; by rewrite events_polled|].
  destruct (is_string _ "failed"); [cbn [snd]; by rewrite events_polled|].
  destruct (IH (attempt + 1)%nat
              (record (Timer (retry_delay result)) (polled this renderId w)))
    as [-> ->].
  by rewrite events_record_timer, events_polled.
Qed.

(** X10.  Without a callback [render] delivers no event and never reads the
    clock. *)
Theorem render_silent_without_callback url options :
  events_of (log (render env this url options NoCallback init_world).2) = [] /\
  ticks (render env this url options NoCallback init_world).2 = 0%nat.
Proof.
  rewrite render_unfold. cbv zeta.
  destruct (submitted env this url options) as [renderId|e]; [|done].
  cbn [emit mret M_ret].
  match goal with
  | |- context [poll _ _ _ _ _ _ _ ?w0] =>
      destruct (poll_silent renderId 60 60 0 w0) as [-> ->]
  end.
  done.
Qed.


(** *** What the handler is told *)



Lemma clocked_polled renderId w : clocked env w -> clocked env (polled this renderId w).
Proof. unfold clocked. by rewrite events_polled. Qed.

Lemma clocked_record_timer ms w : clocked env w -> clocked env (record (Timer ms) w).
Proof. unfold clocked. by rewrite events_record_timer. Qed.

Lemma clocked_delivered onProgress event w :
  (forall timestamp, ev_timestamp (event timestamp) = timestamp) ->
  clocked env w -> clocked env (delivered env onProgress event w).
Proof.
  intros Hevent [Hticks Hstamps]. destruct onProgress as [|f]; [done|].
  unfold clocked. rewrite events_delivered, length_app. cbn [delivered ticks].
  split; [cbn; lia|].
  intros i e Hi. apply lookup_app_Some in Hi as [Hi|[Hlen Hi]]; [by apply Hstamps|].
  apply list_lookup_singleton_Some in Hi as [Hi <-].
  rewrite Hevent, Hticks. f_equal. lia.
Qed.

Lemma poll_clocked onProgress renderId maxAttempts remaining attempt w out w' :
  poll env this onProgress renderId maxAttempts remaining attempt w = (out, w') ->
  clocked env w -> clocked env w'.
Proof.
  revert attempt w.
  induction remaining as [|remaining IH]; intros attempt w Hrun Hw.
  { cbn in Hrun. by injection Hrun as <- <-. }
  rewrite poll_unfold in Hrun. cbv zeta in Hrun.
  apply (clocked_polled renderId) in Hw.
  destruct (settled env this renderId (polls w)) as [result|e].
  2:{ by injection Hrun as <- <-. }
  destruct (emit _ _ _ _) as [out2 w2] eqn:Hpoll.
  apply emit_run in Hpoll as [-> _].
  apply (clocked_delivered onProgress (polling_event renderId result attempt)) in Hw;
    [|done].
  destruct out2 as [[]|e].
  2:{ by injection Hrun as <- <-. }
  destruct (is_string (get_prop result "status") "completed").
  { destruct (emit _ _ _ _) as [out3 w3] eqn:Hdone.
    apply emit_run in Hdone as [-> _].
    apply (clocked_delivered onProgress (terminal_event completed renderId result)) in Hw;
      [|done].
    destruct out3 as [[]|?]; by injection Hrun as <- <-. }
  destruct (is_string (get_prop result "status") "failed").
  { destruct (emit _ _ _ _) as [out3 w3] eqn:Hdone.
    apply emit_run in Hdone as [-> _].
    apply (clocked_delivered onProgress (terminal_event failed renderId result)) in Hw;
      [|done].
    destruct out3 as [[]|?]; by injection Hrun as <- <-. }
  eapply IH; [exact Hrun|]. by apply clocked_record_timer.
Qed.

(** X12.  Every event of a run carries a reading of the clock of its own, taken
    when the event is made: the i-th event delivered (from 0) has the i-th
    reading as its timestamp, so timestamps follow the order of delivery. *)
Theorem events_stamped_in_order url options onProgress out w' :
  render env this url options onProgress init_world = (out, w') ->
  forall i e,
    events_of (log w') !! i = Some e -> ev_timestamp e = now env i.
Proof.
  intros Hrun. rewrite render_unfold in Hrun. cbv zeta in Hrun.
  assert (Hw0 : clocked env (record (HttpPost (renderUrl this)
                                       (build_payload url options)) init_world)).
  { split; [done|]. intros i e. cbn. by rewrite lookup_nil. }
  destruct (submitted env this url options) as [renderId|err].
  2:{ injection Hrun as <- <-. apply Hw0. }
  destruct (emit _ _ _ _) as [out1 w1] eqn:Hstart.
  apply emit_run in Hstart as [-> _].
  apply (clocked_delivered onProgress (started_event renderId)) in Hw0; [|done].
  destruct out1 as [[]|err].
  2:{ injection Hrun as <- <-. apply Hw0. }
  apply poll_clocked in Hrun; [apply Hrun|]. by apply clocked_record_timer.
Qed.

End Lifecycle_more.

(** ** More of the decoder *)

Section Decoder_more.
Context {rt : Runtime}.

Lemma get_decoded_other fields k :
  k <> "html" -> k <> "fetchResponses" ->
  get (decode_fetchResponses (decode_html fields)) k = get fields k.
Proof.
  intros Hh Hf. unfold get.
  by rewrite decode_fetchResponses_other, decode_html_other.
Qed.

(** X13.  Decoding leaves alone what the loop of [render] decides on: whether the
    status is terminal, the delay before the next fetch and the message of a
    failure are those of the object as the service sent it. *)
Theorem decoding_keeps_control_fields fields :
  let decoded := JObj (decode_fetchResponses (decode_html fields)) in
  get_prop decoded "status" = get fields "status" /\
  terminal decoded = terminal (JObj fields) /\
  retry_delay decoded = retry_delay (JObj fields) /\
  failure_message decoded = failure_message (JObj fields).
Proof.
  cbv zeta. unfold terminal, retry_delay, failure_message. cbn [get_prop].
  by rewrite !get_decoded_other.
Qed.

(** X14.  The two fields are decoded independently: decoding [fetchResponses]
    first and [html] second gives the same object. *)
Theorem decoders_commute fields :
  decode_fetchResponses (decode_html fields) =
  decode_html (decode_fetchResponses fields).
Proof.
  apply map_eq. intros k.
  destruct (decide (k = "html")) as [->|Hh].
  - rewrite decoded_html, !decode_html_html.
    unfold get. by rewrite !decode_fetchResponses_other.
  - rewrite (decode_html_other (decode_fetchResponses fields)) by done.
    destruct (decide (k = "fetchResponses")) as [->|Hf].
    + apply decoded_fetchResponses.
    + by rewrite !decode_fetchResponses_other, decode_html_other.
Qed.

Context {enc : Encoding} (env : Env) (this : Browser7).

(** X15.  [render] hands back the page decoded: when the first terminal answer, at
    poll [k], is an object with status completed whose [html] holds
    base64(gzip(utf8(s))), and the callback returns normally, [render]
    returns an object with the same keys whose [html] is [s]. *)
Theorem render_returns_decoded_html url options onProgress renderId k fields s :
  submitted env this url options = Resolved renderId ->
  returns_normally onProgress ->
  (k < 60)%nat ->
  (forall j, (j < k)%nat ->
     exists earlier, settled env this renderId j = Resolved earlier /\
                     terminal earlier = false) ->
  get_render env k (statusUrl this renderId) = Accepted (Some (JObj fields)) ->
  fields !! "status" = Some (JStr "completed") ->
  fields !! "html" = Some (JStr (base64 (gzip (utf8 s)))) ->
  exists fields' w',
    render env this url options onProgress init_world = (Resolved (JObj fields'), w') /\
    dom fields' = dom fields /\
    fields' !! "status" = Some (JStr "completed") /\
    fields' !! "html" = Some (JStr s).
Proof.
  intros Hsub Hcb Hk Hbefore Hget Hstatus Hhtml.
  destruct (render_skips env this url options onProgress renderId k)
    as (wk & -> & Hpolls & _); try done.
  rewrite poll_unfold_normally, Hpolls by done.
  unfold settled. rewrite Hget. cbn [decode_result]. cbv zeta.
  cbn [get_prop]. rewrite get_decoded_other by done.
  rewrite (get_Some _ _ _ Hstatus). cbn [is_string String.eqb].
  eexists _, _. split; [reflexivity|]. split; [|split].
  - by rewrite decode_fetchResponses_dom, decode_html_dom.
  - by rewrite decode_fetchResponses_other, decode_html_other.
  - rewrite decoded_html, decode_html_html, (get_Some _ _ _ Hhtml).
    by rewrite truthy_encoded, inflate_encoded.
Qed.

End Decoder_more.

(** ** More of the wait-action builders *)

(** X16.  The delay, selector and click builders always give their full set of
    keys, the [selector] and [duration] keys also when the argument is
    missing or empty (unlike the text builder); a default stands in for
    [state] and [timeout] only when the argument is [undefined], so an
    explicit [null] goes through. *)
Theorem wait_builders_shape selector state timeout duration :
  dom (waitForDelay duration) = {["type"; "duration"]} /\
  waitForDelay duration !! "type" = Some (JStr "delay") /\
  waitForDelay duration !! "duration" = Some duration /\
  dom (waitForSelector selector state timeout)
    = {["type"; "selector"; "state"; "timeout"]} /\
  waitForSelector selector state timeout !! "type" = Some (JStr "selector") /\
  waitForSelector selector state timeout !! "selector" = Some selector /\
  waitForSelector selector state timeout !! "state" =
    Some (if defined state then state else JStr "visible") /\
  waitForSelector selector state timeout !! "timeout" =
    Some (if defined timeout then timeout else JNum 30000) /\
  dom (waitForClick selector timeout) = {["type"; "selector"; "timeout"]} /\
  waitForClick selector timeout !! "type" = Some (JStr "click") /\
  waitForClick selector timeout !! "selector" = Some selector /\
  waitForClick selector timeout !! "timeout" =
    Some (if defined timeout then timeout else JNum 30000).
Proof.
  unfold waitForDelay, waitForSelector, waitForClick. cbv zeta.
  repeat split;
    rewrite ?dom_insert_L, ?dom_singleton_L; try set_solver;
    try reflexivity; by destruct state, timeout.
Qed.

(** * The further properties at concrete inputs *)

Lemma new_Browser7_addresses_witness :
  exists this,
    new_Browser7 {["apiKey" := JStr "test_key"]} = Resolved this /\
    renderUrl this = "https://api.browser7.com/v1/renders" /\
    statusUrl this (JStr "r1") = "https://api.browser7.com/v1/renders/r1".
Proof.
  destruct (new_Browser7_addresses {["apiKey" := JStr "test_key"]})
    as [[Hkey _]|(_ & this & Hnew & _ & Hdefault & _)]; [discriminate Hkey|].
  exists this. split; [exact Hnew|].
  destruct (Hdefault eq_refl) as [Hpost Hget]. split; [exact Hpost|apply Hget].
Defined.

Lemma http_failures_tell_apart_witness :
  (createRender refusing_env mock_client example_url ∅ init_world).1
    = Rejected (Error "Failed to start render: 401 invalid API key") /\
  (getRender (rt := mock_runtime) refusing_env mock_client (JStr "r1") init_world).1
    = Rejected (Error "Failed to get render status: 401 invalid API key") /\
  (getAccountBalance (fun _ => Refused 401 "invalid API key") mock_client init_world).1
    = Rejected (Error "Failed to get account balance: 401 invalid API key").
Proof.
  destruct (http_failures_tell_apart (rt := mock_runtime) refusing_env mock_client
              example_url ∅ (JStr "r1") (fun _ => Refused 401 "invalid API key")
              init_world 401 "invalid API key" eq_refl eq_refl eq_refl)
    as (m1 & m2 & m3 & H1 & H2 & H3 & _).
  split; [|split].
  - rewrite H1. by injection H1 as <-.
  - rewrite H2. by injection H2 as <-.
  - rewrite H3. by injection H3 as <-.
Defined.

Lemma render_aborts_on_submit_failure_witness :
  render (rt := mock_runtime) refusing_env mock_client example_url ∅ recorder init_world =
    (Rejected (Error "Failed to start render: 401 invalid API key"),
     record (HttpPost (renderUrl mock_client) (build_payload example_url ∅)) init_world).
Proof.
  apply (render_aborts_on_submit_failure (rt := mock_runtime) refusing_env mock_client
           example_url ∅ recorder).
  reflexivity.
Defined.

Lemma render_stops_on_fetch_error_witness :
  exists w',
    render (rt := mock_runtime) flaky_env mock_client example_url ∅ recorder init_world =
      (Rejected (Error ("Failed to connect to " +:+ statusUrl mock_client (JStr "r1")
                        +:+ ": " +:+ "socket hang up")), w') /\
    fetch_count (log w') = 2%nat /\
    length (events_of_type polling (log w')) = per_poll recorder 1 /\
    events_of_type completed (log w') = [] /\
    events_of_type failed (log w') = [].
Proof.
  apply (render_stops_on_fetch_error (rt := mock_runtime) flaky_env mock_client
           example_url ∅ recorder (JStr "r1") 1).
  - reflexivity.
  - intros history e. reflexivity.
  - lia.
  - intros [|j] Hj; [|lia]. exists (status_only "processing"). split; reflexivity.
  - reflexivity.
Defined.

Lemma render_completes_witness :
  exists w',
    render (rt := mock_runtime) ordering_env mock_client example_url ∅ recorder init_world =
      (Resolved (status_only "completed"), w') /\
    fetch_count (log w') = 3%nat /\
    ends_on_completed (JStr "r1") (status_only "completed") (log w').
Proof.
  destruct (render_completes (rt := mock_runtime) ordering_env mock_client example_url ∅
              recorder (JStr "r1") 2 (status_only "completed"))
    as (w' & Hrun & Hfetches & _ & _ & Hends).
  - reflexivity.
  - intros history e. reflexivity.
  - lia.
  - intros [|[|j]] Hj; [| |lia]; exists (processing_for 1); split; reflexivity.
  - reflexivity.
  - reflexivity.
  - exists w'. split; [exact Hrun|]. split; [exact Hfetches|]. by eapply Hends.
Defined.

Lemma render_bounded_witness :
  post_count (log (run always_processing_env (throws_on polling (Some 7%nat))).2) = 1%nat /\
  (fetch_count (log (run always_processing_env (throws_on polling (Some 7%nat))).2)
   <= 60)%nat /\
  (length (events_of (log (run always_processing_env (throws_on polling (Some 7%nat))).2))
   <= fetch_count (log (run always_processing_env (throws_on polling (Some 7%nat))).2)
      + 2)%nat.
Proof.
  apply (render_bounded (rt := mock_runtime) always_processing_env mock_client
           example_url ∅ (throws_on polling (Some 7%nat)) _ _ (surjective_pairing _)).
Defined.


Lemma events_stamped_in_order_witness :
  ev_timestamp <$> events_of (log (run ordering_env recorder).2) !! 4%nat = Some "t4".
Proof.
  destruct (events_of (log (run ordering_env recorder).2) !! 4%nat)
    as [e|] eqn:He; [|by vm_compute in He].
  cbn [fmap option_fmap option_map]. f_equal.
  apply (events_stamped_in_order (rt := mock_runtime) ordering_env mock_client
           example_url ∅ recorder _ _ (surjective_pairing _) 4%nat e He).
Defined.

Lemma render_returns_decoded_html_witness :
  exists fields' w',
    render (rt := mock_runtime) decoding_env mock_client example_url ∅ recorder init_world
      = (Resolved (JObj fields'), w') /\
    dom fields' = dom compressed_fields /\
    fields' !! "status" = Some (JStr "completed") /\
    fields' !! "html" = Some (JStr "<html></html>").
Proof.
  apply (render_returns_decoded_html (rt := mock_runtime) (enc := mock_encoding)
           decoding_env mock_client example_url ∅ recorder (JStr "r1") 1
           compressed_fields "<html></html>").
  - reflexivity.
  - intros history e. reflexivity.
  - lia.
  - intros [|j] Hj; [|lia]. exists (status_only "processing"). split; reflexivity.
  - reflexivity.
  - reflexivity.
  - reflexivity.
Defined.
